(** * Recursive ray tracing core (raytracing.c): model and properties

    A shallow embedding of [rayTrace], [shade], [getNearestObject] and
    [isInShadow].  C [double] values are binary64 floats ([PrimFloat.float]),
    C [int] values are integers in [Z] (the depth counter never leaves the
    range -2^31 .. 7 on any path that increments it, so no wrap-around is
    involved).  The headers algebra.h, color.h, scene.h, object.h,
    material.h and light.h are not part of the sources: their operations
    are the fields of the class [Collaborators]. *)

From Stdlib Require Import ZArith List Lia Bool Floats.
Import ListNotations.

Set Warnings "-inexact-float".
Local Open Scope Z_scope.

(** ** Doubles *)

Definition double : Type := float.

(** [DBL_MAX] of <float.h>: the largest finite binary64 value. *)
Definition DBL_MAX : double := 0x1.fffffffffffffp+1023%float.

(** [#define MAX_DEPTH 6] *)
Definition MAX_DEPTH : Z := 6.

(** ** Collaborators

    The operations [raytracing.c] calls in the absent headers, with the
    types those calls are made at.  Pointers ([Scene*], [Object*],
    [Material*], [Light*]) are values of abstract handle types; the
    operations are pure, as the core only reads the scene. *)

Class Collaborators (Vector Color Scene Object Material Light : Type) : Type := {
  (* algebra.h *)
  algAdd : Vector -> Vector -> Vector;
  algSub : Vector -> Vector -> Vector;
  algScale : double -> Vector -> Vector;
  algUnit : Vector -> Vector;
  algNorm : Vector -> double;
  algDot : Vector -> Vector -> double;
  algReflect : Vector -> Vector -> Vector;
  algSnell : Vector -> Vector -> double -> double -> Vector;
  (* color.h *)
  colorAddition : Color -> Color -> Color;
  colorMultiplication : Color -> Color -> Color;
  colorScale : double -> Color -> Color;
  (* scene.h *)
  sceneGetObjectCount : Scene -> Z;
  sceneGetObject : Scene -> Z -> Object;
  sceneGetLightCount : Scene -> Z;
  sceneGetLight : Scene -> Z -> Light;
  sceneGetMaterial : Scene -> Z -> Material;
  sceneGetAmbientLight : Scene -> Color;
  sceneGetBackgroundColor : Scene -> Vector -> Vector -> Color;
  (* object.h *)
  objIntercept : Object -> Vector -> Vector -> double;
  objNormalAt : Object -> Vector -> Vector;
  objTextureCoordinateAt : Object -> Vector -> Vector;
  objInterceptExit : Object -> Vector -> Vector -> Vector;
  objGetMaterial : Object -> Z;
  (* material.h *)
  materialGetDiffuse : Material -> Vector -> Color;
  materialGetSpecular : Material -> Color;
  materialGetSpecularExponent : Material -> double;
  materialGetReflectionFactor : Material -> double;
  materialGetRefractionIndex : Material -> double;
  materialGetOpacity : Material -> double;
  (* light.h *)
  lightGetPosition : Light -> Vector;
  lightGetColor : Light -> Color;
  (* math.h *)
  pow : double -> double -> double
}.

(** ** Program state and the monad of [rayTrace]

    The only program state is the global [Color lastColor].  [events] is a
    ghost trace of the calls made (most recent first); no code reads it. *)

Inductive Event : Type :=
| EvRayTrace (depth : Z)
| EvNearest
| EvShade (depth : Z).

Record World (Color : Type) : Type := mkWorld {
  lastColor : Color;
  events : list Event
}.
Arguments mkWorld {Color} _ _.
Arguments lastColor {Color} _.
Arguments events {Color} _.

(** [OutOfFuel]: the recursion budget of the model ran out.
    [UninitialisedObject]: the local [Object* object] of [rayTrace] would be
    read before [getNearestObject] stored into it. *)
Inductive Outcome (Color A : Type) : Type :=
| Done (a : A) (w : World Color)
| OutOfFuel
| UninitialisedObject.
Arguments Done {Color A} _ _.
Arguments OutOfFuel {Color A}.
Arguments UninitialisedObject {Color A}.

Definition M (Color A : Type) : Type := World Color -> Outcome Color A.

Definition ret {Color A} (a : A) : M Color A := fun w => Done a w.

Definition bind {Color A B} (m : M Color A) (k : A -> M Color B) : M Color B :=
  fun w =>
    match m w with
    | Done a w' => k a w'
    | OutOfFuel => OutOfFuel
    | UninitialisedObject => UninitialisedObject
    end.

Notation "x <- m ;; k" := (bind m (fun x => k))
  (at level 61, m at next level, right associativity).
Notation "m ;;; k" := (bind m (fun _ => k))
  (at level 61, right associativity).

Definition tick {Color} (e : Event) : M Color unit :=
  fun w => Done tt (mkWorld (lastColor w) (e :: events w)).

Definition getLastColor {Color} : M Color Color :=
  fun w => Done (lastColor w) w.

Definition setLastColor {Color} (c : Color) : M Color unit :=
  fun w => Done tt (mkWorld c (events w)).

Definition outOfFuel {Color A} : M Color A := fun _ => OutOfFuel.
Definition uninitialisedObject {Color A} : M Color A := fun _ => UninitialisedObject.

Fixpoint foldM {Color A B} (f : A -> B -> M Color A) (l : list B) (a : A) : M Color A :=
  match l with
  | [] => ret a
  | b :: l' => a' <- f a b ;; foldM f l' a'
  end.

(** The values [0, 1, ..., count-1] of a loop [for (i = 0; i < count; ++i)]. *)
Definition indices (count : Z) : list Z := map Z.of_nat (seq 0 (Z.to_nat count)).

(** Number of [rayTrace] calls recorded in a trace. *)
Fixpoint rayTraceCalls (l : list Event) : nat :=
  match l with
  | [] => 0
  | EvRayTrace _ :: l' => S (rayTraceCalls l')
  | _ :: l' => rayTraceCalls l'
  end.

(** Depth arguments of the [rayTrace] calls of a trace, oldest first. *)
Definition rayTraceDepths (l : list Event) : list Z :=
  flat_map (fun e => match e with EvRayTrace d => [d] | _ => [] end) (rev l).

Section Model.

Context {Vector Color Scene Object Material Light : Type}.
Context {E : Collaborators Vector Color Scene Object Material Light}.

(** *** getNearestObject (lines 228-248) *)

(** One iteration; the state is [closest] and the contents of [*object]. *)
Definition nearest_step (scene : Scene) (eye ray : Vector)
  (st : double * option Object) (i : Z) : double * option Object :=
  let '(closest, object) := st in
  let currentObject := sceneGetObject scene i in
  let distance := objIntercept currentObject eye ray in
  if ((0.00001 <? distance) && (distance <? closest))%float
  then (distance, Some currentObject)
  else (closest, object).

(** [object] is what [*object] holds on entry ([None]: never written). *)
Definition getNearestObject (scene : Scene) (eye ray : Vector)
  (object : option Object) : double * option Object :=
  let objectCount := sceneGetObjectCount scene in
  fold_left (nearest_step scene eye ray) (indices objectCount) (DBL_MAX, object).

(** *** isInShadow (lines 250-273) *)

Definition shadow_step (scene : Scene) (point rayToLight : Vector)
  (maxDistance : double) (opacity : double) (i : Z) : double :=
  let distance := objIntercept (sceneGetObject scene i) point rayToLight in
  if ((0.1 <? distance) && (distance <? maxDistance))%float
  then
    let interceptionObject := sceneGetObject scene i in
    let material := sceneGetMaterial scene (objGetMaterial interceptionObject) in
    (opacity + materialGetOpacity material)%float
  else opacity.

Definition isInShadow (scene : Scene) (point rayToLight lightLocation : Vector)
  : double :=
  let objectCount := sceneGetObjectCount scene in
  let maxDistance := algNorm (algSub lightLocation point) in
  fold_left (shadow_step scene point rayToLight maxDistance)
            (indices objectCount) 0%float.

(** *** shade (lines 123-226) *)

(** The variables of [shade] that the blocks of the light loop assign and
    read: [color], the parameter [ray] (reassigned at line 171) and
    [intensitycolor]. *)
Record ShadeVars : Type := mkVars {
  v_color : Color;
  v_ray : Vector;
  v_intensitycolor : Color
}.

(** The recursive entry point as [shade] sees it. *)
Definition Tracer : Type := Scene -> Vector -> Vector -> Z -> M Color Color.

(** Lines 163-178. *)
Definition shade_transparency (rec : Tracer) (scene : Scene) (object : Object)
  (point : Vector) (depth : Z) (refractedIndex opacity : double)
  (v : ShadeVars) : M Color ShadeVars :=
  if (opacity <? 1)%float then
    let normal := objNormalAt object point in
    let innerRay := algSnell (v_ray v) normal 1.00029%float refractedIndex in
    let exitPoint := objInterceptExit object point innerRay in
    let normal := algUnit (objNormalAt object exitPoint) in
    let ray := algSnell innerRay (algScale (-1)%float normal) refractedIndex 1.00029%float in
    colorOpacity <- rec scene exitPoint ray depth ;;
    let factor := (1 - opacity)%float in
    let intensitycolor := colorScale factor colorOpacity in
    let colorAux := colorScale opacity (v_color v) in
    ret (mkVars (colorAddition intensitycolor colorAux) ray intensitycolor)
  else ret v.

(** Lines 183-197. *)
Definition shade_diffuse (normal pointToLightRay : Vector) (diffuse : Color)
  (opacity InterceptionOpacity : double) (v : ShadeVars) : ShadeVars :=
  if (0 <? opacity)%float then
    let produto := algDot normal pointToLightRay in
    if (0 <? produto)%float then
      let intensitycolor := colorScale produto diffuse in
      let intensitycolor := colorScale opacity intensitycolor in
      let intensitycolor :=
        if negb (InterceptionOpacity =? 0)%float
        then colorScale (1 - InterceptionOpacity)%float intensitycolor
        else intensitycolor in
      mkVars (colorAddition (v_color v) intensitycolor) (v_ray v) intensitycolor
    else v
  else v.

(** Lines 199-212. *)
Definition shade_specular (normal pointToLightRay pointToEyeRay : Vector)
  (specular : Color) (specularExponent InterceptionOpacity : double)
  (v : ShadeVars) : ShadeVars :=
  let pointToLightRayReflected := algReflect pointToLightRay normal in
  let produto := algDot pointToLightRayReflected pointToEyeRay in
  if (0 <? produto)%float then
    let produto :=
      pow (algDot pointToLightRayReflected pointToEyeRay) specularExponent in
    let intensitycolor := colorScale produto specular in
    let intensitycolor :=
      if negb (InterceptionOpacity =? 0)%float
      then colorScale (1 - InterceptionOpacity)%float intensitycolor
      else intensitycolor in
    mkVars (colorAddition (v_color v) intensitycolor) (v_ray v) intensitycolor
  else v.

(** Lines 215-222. *)
Definition shade_mirror (rec : Tracer) (scene : Scene) (point normal : Vector)
  (pointToEyeRay : Vector) (reflectionFactor : double) (depth : Z)
  (v : ShadeVars) : M Color ShadeVars :=
  if (0 <? reflectionFactor)%float then
    let reflecRay := algReflect pointToEyeRay normal in
    colorReflec <- rec scene point reflecRay (depth + 1) ;;
    let intensitycolor := colorScale reflectionFactor colorReflec in
    ret (mkVars (colorAddition (v_color v) intensitycolor) (v_ray v) intensitycolor)
  else ret v.

(** One iteration of the loop of lines 150-223.  [color] and [ray] are
    carried from one iteration to the next; [intensitycolor] is assigned at
    the top of every iteration (line 155).  The assignment
    [InterceptionOpacity = 0] of line 152 is dead: line 181 overwrites it. *)
Definition shade_light (rec : Tracer) (scene : Scene) (eye : Vector)
  (object : Object) (point normal : Vector) (depth : Z)
  (diffuse specular : Color)
  (specularExponent reflectionFactor refractedIndex opacity : double)
  (cr : Color * Vector) (w : Z) : M Color (Color * Vector) :=
  let intensity := sceneGetLight scene w in
  let softlight := lightGetPosition intensity in
  let v := mkVars (fst cr) (snd cr) (lightGetColor intensity) in
  let pointToEyeRay := algSub eye point in
  let pointToEyeRay := algUnit pointToEyeRay in
  let pointToLightRay := algSub softlight point in
  let pointToLightRay := algUnit pointToLightRay in
  v <- shade_transparency rec scene object point depth refractedIndex opacity v ;;
  let InterceptionOpacity := isInShadow scene point pointToLightRay softlight in
  let v := shade_diffuse normal pointToLightRay diffuse opacity InterceptionOpacity v in
  let v := shade_specular normal pointToLightRay pointToEyeRay specular
             specularExponent InterceptionOpacity v in
  v <- shade_mirror rec scene point normal pointToEyeRay reflectionFactor depth v ;;
  ret (v_color v, v_ray v).

Definition shade (rec : Tracer) (scene : Scene) (eye ray : Vector)
  (object : Object) (point normal : Vector) (depth : Z) : M Color Color :=
  tick (EvShade depth) ;;;
  let material := sceneGetMaterial scene (objGetMaterial object) in
  let ambient := sceneGetAmbientLight scene in
  let diffuse := materialGetDiffuse material (objTextureCoordinateAt object point) in
  let specular := materialGetSpecular material in
  let specularExponent := materialGetSpecularExponent material in
  let reflectionFactor := materialGetReflectionFactor material in
  let refractedIndex := materialGetRefractionIndex material in
  let opacity := materialGetOpacity material in
  let LightCount := sceneGetLightCount scene in
  let color := colorMultiplication diffuse ambient in
  cr <- foldM (shade_light rec scene eye object point normal depth diffuse specular
                 specularExponent reflectionFactor refractedIndex opacity)
              (indices LightCount) (color, ray) ;;
  ret (fst cr).

(** *** rayTrace (lines 87-117)

    [fuel] bounds the nesting of [rayTrace] calls: every call takes one
    unit and hands the rest to the calls [shade] makes. *)
Fixpoint rayTrace (fuel : nat) (scene : Scene) (eye ray : Vector) (depth : Z)
  : M Color Color :=
  match fuel with
  | O => outOfFuel
  | S fuel' =>
    tick (EvRayTrace depth) ;;;
    if depth <? MAX_DEPTH then
      let depth := depth + 1 in
      tick EvNearest ;;;
      let '(distance, object) := getNearestObject scene eye ray None in
      if (distance =? DBL_MAX)%float then
        ret (sceneGetBackgroundColor scene eye ray)
      else
        match object with
        | None => uninitialisedObject
        | Some object =>
          let point := algAdd eye (algScale distance ray) in
          let normal := algUnit (objNormalAt object point) in
          c <- shade (rayTrace fuel') scene eye ray object point normal depth ;;
          setLastColor c ;;;
          getLastColor
        end
    else getLastColor
  end.

(** *** Vocabulary of the statements *)

(** Intersection distance of object [i] along a ray. *)
Definition distanceAt (scene : Scene) (eye ray : Vector) (i : Z) : double :=
  objIntercept (sceneGetObject scene i) eye ray.

(** Above the self-intersection epsilon. *)
Definition exceedsEpsilon (d : double) : bool := (0.00001 <? d)%float.

(** Above the self-intersection epsilon and below [DBL_MAX]. *)
Definition accepted (d : double) : bool :=
  ((0.00001 <? d) && (d <? DBL_MAX))%float.

(** What [getNearestObject] is to return, for a given notion [qual] of
    qualifying distance: nothing qualifies and the answer is [DBL_MAX] with
    [*object] untouched, or the answer is the least qualifying distance and
    the first object attaining it. *)
Definition nearestSpec (qual : double -> bool) (scene : Scene) (eye ray : Vector)
  (object : option Object) : Prop :=
  let n := sceneGetObjectCount scene in
  let dist := distanceAt scene eye ray in
  ((forall i, 0 <= i < n -> qual (dist i) = false) ->
   getNearestObject scene eye ray object = (DBL_MAX, object)) /\
  ((exists i, 0 <= i < n /\ qual (dist i) = true) ->
   exists i, 0 <= i < n /\ qual (dist i) = true /\
     getNearestObject scene eye ray object = (dist i, Some (sceneGetObject scene i)) /\
     (forall j, 0 <= j < n -> qual (dist j) = true -> (dist i <=? dist j)%float = true) /\
     (forall j, 0 <= j < i -> qual (dist j) = true -> (dist i <? dist j)%float = true)).

(** An object lies between a point and the light when its distance is
    strictly between the shadow epsilon and the distance to the light. *)
Definition blocksLight (scene : Scene) (point rayToLight lightLocation : Vector)
  (i : Z) : bool :=
  let d := distanceAt scene point rayToLight in
  ((0.1 <? d i) && (d i <? algNorm (algSub lightLocation point)))%float.

Definition opacityAt (scene : Scene) (i : Z) : double :=
  materialGetOpacity (sceneGetMaterial scene (objGetMaterial (sceneGetObject scene i))).

(** A tracer that only records the depth it is called with and answers
    [c0]: it makes the calls of [shade] itself visible in the trace. *)
Definition probe (c0 : Color) : Tracer :=
  fun _ _ _ depth w => Done c0 (mkWorld (lastColor w) (EvRayTrace depth :: events w)).

(** Depths of the trace calls one light iteration of [shade] makes. *)
Definition callsPerLight (opacity reflectionFactor : double) (depth : Z) : list Z :=
  (if (opacity <? 1)%float then [depth] else []) ++
  (if (0 <? reflectionFactor)%float then [depth + 1] else []).

(** Attenuation applied to a light's contribution (lines 191-194, 207-210). *)
Definition shadowed (InterceptionOpacity : double) (c : Color) : Color :=
  if negb (InterceptionOpacity =? 0)%float
  then colorScale (1 - InterceptionOpacity)%float c
  else c.

(** Number of [rayTrace] calls of a chain of mirror reflections that is
    [levels] working calls deep, with [L] lights: every working call makes
    one call per light, a call that is not working makes none. *)
Fixpoint mirrorCalls (L levels : nat) : nat :=
  match levels with
  | O => 1
  | S k => 1 + L * mirrorCalls L k
  end.

(** Working calls on the chain depth, depth + 2, depth + 4, ... *)
Definition mirrorLevels (depth : Z) : nat :=
  Z.to_nat ((MAX_DEPTH - depth + 1) / 2).

(** The ray [shade] traces for the mirror reflection of a hit. *)
Definition mirroredRay (eye ray : Vector) (distance : double) (object : Object)
  : Vector * Vector :=
  let point := algAdd eye (algScale distance ray) in
  let normal := algUnit (objNormalAt object point) in
  (point, algReflect (algUnit (algSub eye point)) normal).

(** [between] is a set of rays each of which hits an opaque mirror of the
    scene and is reflected into a ray of the set. *)
Definition mirrorHall (scene : Scene) (between : Vector -> Vector -> Prop) : Prop :=
  forall eye ray, between eye ray ->
  exists distance object,
    getNearestObject scene eye ray None = (distance, Some object) /\
    (distance =? DBL_MAX)%float = false /\
    (materialGetOpacity (sceneGetMaterial scene (objGetMaterial object)) <? 1)%float
      = false /\
    (0 <? materialGetReflectionFactor (sceneGetMaterial scene (objGetMaterial object)))%float
      = true /\
    between (fst (mirroredRay eye ray distance object))
            (snd (mirroredRay eye ray distance object)).

(** State of the scan of [getNearestObject] after the objects [0 .. m-1]. *)
Definition scanned (scene : Scene) (eye ray : Vector) (object : option Object)
  (m : nat) : double * option Object :=
  fold_left (nearest_step scene eye ray) (indices (Z.of_nat m)) (DBL_MAX, object).

(** [steps R m]: from every state, [m] returns, in a state related by [R]
    to the one it started in. *)
Definition steps {A : Type} (R : World Color -> World Color -> Prop)
  (m : M Color A) : Prop :=
  forall w, exists a w', m w = Done a w' /\ R w w'.

(** The trace of [w'] is the trace of [w] followed by events that all
    satisfy [P]; [lastColor] is free to change. *)
Definition extendsBy (P : Event -> Prop) (w w' : World Color) : Prop :=
  exists new, events w' = new ++ events w /\ Forall P new.

(** No shading happens beyond the depth limit. *)
Definition boundedEvent (e : Event) : Prop :=
  match e with
  | EvShade d => d <= MAX_DEPTH
  | _ => True
  end.

(** [lastColor] is written after every shading and nowhere else. *)
Definition fallbackSpec (scene : Scene) (eye ray : Vector) (w : World Color)
  (c : Color) (w' : World Color) : Prop :=
  ((fst (getNearestObject scene eye ray None) =? DBL_MAX)%float = false ->
   lastColor w' = c) /\
  ((fst (getNearestObject scene eye ray None) =? DBL_MAX)%float = true ->
   c = sceneGetBackgroundColor scene eye ray /\ lastColor w' = lastColor w).

(** The variables that outlive a block: [intensitycolor] is not among them. *)
Definition sameLive (v1 v2 : ShadeVars) : Prop :=
  v_color v1 = v_color v2 /\ v_ray v1 = v_ray v2.

Definition sameOutcome (o1 o2 : Outcome Color ShadeVars) : Prop :=
  match o1, o2 with
  | Done v1 w1, Done v2 w2 => sameLive v1 v2 /\ w1 = w2
  | OutOfFuel, OutOfFuel => True
  | UninitialisedObject, UninitialisedObject => True
  | _, _ => False
  end.

(** Two tracers that agree on the calls made at depth [d]. *)
Definition sameTracer (d : Z) (rec1 rec2 : Tracer) : Prop :=
  forall s e r w, rec1 s e r d w = rec2 s e r d w.

(** Fuel that covers every call chain starting at [depth]. *)
Definition fuelFor (depth : Z) : nat := S (Z.to_nat (MAX_DEPTH - depth)).

(** The unconditional reading of the fallback rule: whenever a call below
    the limit returns, [lastColor] is the colour it returned. *)
Definition fallbackAlwaysWritten (scene : Scene) (eye ray : Vector) (depth : Z)
  (w : World Color) : Prop :=
  depth < MAX_DEPTH ->
  forall c w', rayTrace (fuelFor depth) scene eye ray depth w = Done c w' ->
               lastColor w' = c.

(** The reading of the mirror test that counts [MAX_DEPTH] recursive calls
    (the calls after the primary one). *)
Definition mirrorCallsAreMaxDepth (scene : Scene) (eye ray : Vector)
  (w : World Color) : Prop :=
  exists c w', rayTrace (fuelFor 0) scene eye ray 0 w = Done c w' /\
    (rayTraceCalls (events w') - rayTraceCalls (events w) - 1)%nat
      = Z.to_nat MAX_DEPTH.

End Model.

(** The same collaborators, with the colours of the lights replaced. *)
Definition withLightColor {Vector Color Scene Object Material Light : Type}
  (E : Collaborators Vector Color Scene Object Material Light)
  (f : Light -> Color) : Collaborators Vector Color Scene Object Material Light := {|
  algAdd := algAdd;
  algSub := algSub;
  algScale := algScale;
  algUnit := algUnit;
  algNorm := algNorm;
  algDot := algDot;
  algReflect := algReflect;
  algSnell := algSnell;
  colorAddition := colorAddition;
  colorMultiplication := colorMultiplication;
  colorScale := colorScale;
  sceneGetObjectCount := sceneGetObjectCount;
  sceneGetObject := sceneGetObject;
  sceneGetLightCount := sceneGetLightCount;
  sceneGetLight := sceneGetLight;
  sceneGetMaterial := sceneGetMaterial;
  sceneGetAmbientLight := sceneGetAmbientLight;
  sceneGetBackgroundColor := sceneGetBackgroundColor;
  objIntercept := objIntercept;
  objNormalAt := objNormalAt;
  objTextureCoordinateAt := objTextureCoordinateAt;
  objInterceptExit := objInterceptExit;
  objGetMaterial := objGetMaterial;
  materialGetDiffuse := materialGetDiffuse;
  materialGetSpecular := materialGetSpecular;
  materialGetSpecularExponent := materialGetSpecularExponent;
  materialGetReflectionFactor := materialGetReflectionFactor;
  materialGetRefractionIndex := materialGetRefractionIndex;
  materialGetOpacity := materialGetOpacity;
  lightGetPosition := lightGetPosition;
  lightGetColor := f;
  pow := pow
|}.

(** ** Further vocabulary: local lighting, call budget, depth range *)

(** Upper bound on the [rayTrace] calls of one call with [levels] working
    levels left and [L] lights: a working call makes, per light, at most
    one call a level down (the refracted ray) and one two levels down (the
    mirrored ray). *)
Fixpoint callBound (L levels : nat) : nat :=
  match levels with
  | O => 1
  | S m => 1 + L * (callBound L m + match m with O => 1 | S k => callBound L k end)
  end.

(** Working levels left at [depth]. *)
Definition levelsLeft (depth : Z) : nat := Z.to_nat (MAX_DEPTH - depth).

(** Depths a call chain started at [d0] may show: [rayTrace] is called
    between [d0] and [MAX_DEPTH + 1] (or at [d0] itself when that is
    larger), [shade] above [d0] and up to [MAX_DEPTH]. *)
Definition depthInRange (d0 : Z) (e : Event) : Prop :=
  match e with
  | EvRayTrace d => d0 <= d <= Z.max d0 (MAX_DEPTH + 1)
  | EvShade d => d0 < d <= MAX_DEPTH
  | EvNearest => True
  end.

Section LocalLighting.

Context {Vector Color Scene Object Material Light : Type}.
Context {E : Collaborators Vector Color Scene Object Material Light}.

(** What light [w] adds to [color] at a hit, written out: the diffuse term
    (for a positive opacity and a positive cosine) and the specular term
    (for a positive cosine of the reflected light with the eye), each
    attenuated by the shadow factor of that light. *)
Definition localLight (scene : Scene) (eye : Vector) (object : Object)
  (point normal : Vector) (color : Color) (w : Z) : Color :=
  let material := sceneGetMaterial scene (objGetMaterial object) in
  let diffuse := materialGetDiffuse material (objTextureCoordinateAt object point) in
  let opacity := materialGetOpacity material in
  let softlight := lightGetPosition (sceneGetLight scene w) in
  let toEye := algUnit (algSub eye point) in
  let toLight := algUnit (algSub softlight point) in
  let shadow := isInShadow scene point toLight softlight in
  let lambert := algDot normal toLight in
  let mirrored := algDot (algReflect toLight normal) toEye in
  let lit :=
    if ((0 <? opacity) && (0 <? lambert))%float
    then colorAddition color
           (shadowed shadow (colorScale opacity (colorScale lambert diffuse)))
    else color in
  if (0 <? mirrored)%float
  then colorAddition lit
         (shadowed shadow
            (colorScale (pow mirrored (materialGetSpecularExponent material))
                        (materialGetSpecular material)))
  else lit.

(** The colour of a surface that neither transmits nor reflects: the
    ambient term and the local contribution of every light in turn. *)
Definition localColor (scene : Scene) (eye : Vector) (object : Object)
  (point normal : Vector) : Color :=
  let material := sceneGetMaterial scene (objGetMaterial object) in
  let diffuse := materialGetDiffuse material (objTextureCoordinateAt object point) in
  fold_left (localLight scene eye object point normal)
            (indices (sceneGetLightCount scene))
            (colorMultiplication diffuse (sceneGetAmbientLight scene)).

(** The ray [shade] traces for the transmitted light, from the current
    value [r] of its variable [ray] (lines 167-171). *)
Definition refractedRay (scene : Scene) (object : Object) (point r : Vector)
  : Vector * Vector :=
  let refractedIndex :=
    materialGetRefractionIndex (sceneGetMaterial scene (objGetMaterial object)) in
  let innerRay := algSnell r (objNormalAt object point) 1.00029%float refractedIndex in
  let exitPoint := objInterceptExit object point innerRay in
  let normal := algUnit (objNormalAt object exitPoint) in
  (exitPoint, algSnell innerRay (algScale (-1)%float normal) refractedIndex 1.00029%float).

(** [between] is a set of rays each of which hits a transparent object
    that does not reflect; [current] holds of the values the variable
    [ray] takes at such a hit, and the ray refracted from any of them is
    again in [between]. *)
Definition glassHall (scene : Scene) (between : Vector -> Vector -> Prop)
  (current : Object -> Vector -> Vector -> Prop) : Prop :=
  (forall eye ray, between eye ray ->
   exists distance object,
     getNearestObject scene eye ray None = (distance, Some object) /\
     (distance =? DBL_MAX)%float = false /\
     (materialGetOpacity (sceneGetMaterial scene (objGetMaterial object)) <? 1)%float
       = true /\
     (0 <? materialGetReflectionFactor (sceneGetMaterial scene (objGetMaterial object)))%float
       = false /\
     current object (algAdd eye (algScale distance ray)) ray) /\
  (forall object point r, current object point r ->
     between (fst (refractedRay scene object point r))
             (snd (refractedRay scene object point r)) /\
     current object point (snd (refractedRay scene object point r))).

(** [m] never reports a read of the unset [object]. *)
Definition objectSafe {A : Type} (m : M Color A) : Prop :=
  forall w, m w <> UninitialisedObject.

End LocalLighting.

(** ** The light loop of [shade], step by step

    A second description of one iteration of the loop of lines 150-223,
    written from what each block is to do to the pair ([color], [ray]); the
    properties of [shade] compare it with the model of the source. *)

Section ShadeSteps.

Context {Vector Color Scene Object Material Light : Type}.
Context {E : Collaborators Vector Color Scene Object Material Light}.

(** The colour [shade] starts from (line 148). *)
Definition shadeSeed (scene : Scene) (object : Object) (point : Vector) : Color :=
  let material := sceneGetMaterial scene (objGetMaterial object) in
  colorMultiplication
    (materialGetDiffuse material (objTextureCoordinateAt object point))
    (sceneGetAmbientLight scene).

(** Transparency: for an opacity below 1, trace the refracted ray at the
    depth of [shade] and blend. *)
Definition refractStep (rec : Tracer) (scene : Scene) (object : Object)
  (point : Vector) (depth : Z) (cr : Color * Vector) : M Color (Color * Vector) :=
  let opacity := materialGetOpacity (sceneGetMaterial scene (objGetMaterial object)) in
  if (opacity <? 1)%float then
    transmitted <- rec scene (fst (refractedRay scene object point (snd cr)))
                       (snd (refractedRay scene object point (snd cr))) depth ;;
    ret (colorAddition (colorScale (1 - opacity)%float transmitted)
                       (colorScale opacity (fst cr)),
         snd (refractedRay scene object point (snd cr)))
  else ret cr.

(** Mirror: for a positive reflection factor, trace the mirrored eye
    direction one level down and add its colour, scaled. *)
Definition mirrorStep (rec : Tracer) (scene : Scene) (eye : Vector)
  (object : Object) (point normal : Vector) (depth : Z) (color : Color)
  : M Color Color :=
  let reflectionFactor :=
    materialGetReflectionFactor (sceneGetMaterial scene (objGetMaterial object)) in
  if (0 <? reflectionFactor)%float then
    reflected <- rec scene point (algReflect (algUnit (algSub eye point)) normal)
                     (depth + 1) ;;
    ret (colorAddition color (colorScale reflectionFactor reflected))
  else ret color.

(** One light: transparency, local lighting, mirror. *)
Definition lightStep (rec : Tracer) (scene : Scene) (eye : Vector)
  (object : Object) (point normal : Vector) (depth : Z)
  (cr : Color * Vector) (k : Z) : M Color (Color * Vector) :=
  cr1 <- refractStep rec scene object point depth cr ;;
  color <- mirrorStep rec scene eye object point normal depth
             (localLight scene eye object point normal (fst cr1) k) ;;
  ret (color, snd cr1).

(** Depths of the [rayTrace] calls of a chain of mirror reflections, in
    call order: the call itself, then for every light the calls of the
    reflected ray two levels down. *)
Fixpoint mirrorDepths (lights : list Z) (levels : nat) (depth : Z) : list Z :=
  match levels with
  | O => [depth]
  | S k => depth :: flat_map (fun _ => mirrorDepths lights k (depth + 1 + 1)) lights
  end.

(** Colour returned, and [lastColor] left, by a chain of mirror
    reflections [levels] working calls deep that is entered with
    [lastColor = fallback]: below the last working level the fallback
    comes back as it stands; a working level adds, light after light, the
    local lighting and the scaled colour of the reflected ray to the
    seed, each reflected ray being traced with the [lastColor] the
    previous one left. *)
Fixpoint mirrorTrace (scene : Scene) (lights : list Z) (levels : nat)
  (eye ray : Vector) (fallback : Color) : Color * Color :=
  match levels with
  | O => (fallback, fallback)
  | S k =>
    match getNearestObject scene eye ray None with
    | (distance, Some object) =>
      let point := algAdd eye (algScale distance ray) in
      let normal := algUnit (objNormalAt object point) in
      let reflectionFactor :=
        materialGetReflectionFactor (sceneGetMaterial scene (objGetMaterial object)) in
      let reflecRay := algReflect (algUnit (algSub eye point)) normal in
      let color :=
        fst (fold_left
               (fun (st : Color * Color) (i : Z) =>
                  let reflected := mirrorTrace scene lights k point reflecRay (snd st) in
                  (colorAddition (localLight scene eye object point normal (fst st) i)
                                 (colorScale reflectionFactor (fst reflected)),
                   snd reflected))
               lights (shadeSeed scene object point, fallback)) in
      (color, color)
    | (_, None) => (sceneGetBackgroundColor scene eye ray, fallback)
    end
  end.

End ShadeSteps.

(** ** A concrete set of collaborators

    An executable instance of [Collaborators], used to run the model on
    concrete scenes: vectors and colours are triples of doubles, objects
    are walls perpendicular to the x axis (or probes that report a fixed
    distance), and the scene keeps its objects, lights and materials in
    lists. *)

Module Demo.

Local Open Scope float_scope.

Record Vec : Type := mkVec { vx : double; vy : double; vz : double }.

Record RGB : Type := mkRGB { red : double; green : double; blue : double }.

Record Mat : Type := mkMat {
  m_diffuse : RGB;
  m_specular : RGB;
  m_specularExponent : double;
  m_reflectionFactor : double;
  m_refractionIndex : double;
  m_opacity : double
}.

(** [Wall x0 nx mat]: the plane x = x0 with normal (nx, 0, 0).
    [Probe d mat]: an object whose intersection routine answers [d]. *)
Inductive Obj : Type :=
| Wall (x0 nx : double) (mat : Z)
| Probe (d : double) (mat : Z).

Record Lamp : Type := mkLamp { lamp_position : Vec; lamp_color : RGB }.

Record Scn : Type := mkScn {
  s_objects : list Obj;
  s_lights : list Lamp;
  s_materials : list Mat;
  s_ambient : RGB;
  s_background : RGB
}.

Definition vadd (a b : Vec) : Vec :=
  mkVec (vx a + vx b) (vy a + vy b) (vz a + vz b)%float.
Definition vsub (a b : Vec) : Vec :=
  mkVec (vx a - vx b) (vy a - vy b) (vz a - vz b)%float.
Definition vscale (k : double) (a : Vec) : Vec :=
  mkVec (k * vx a) (k * vy a) (k * vz a)%float.
Definition vdot (a b : Vec) : double :=
  (vx a * vx b + vy a * vy b + vz a * vz b)%float.
Definition vnorm (a : Vec) : double := sqrt (vdot a a).
Definition vunit (a : Vec) : Vec := vscale (1 / vnorm a)%float a.
(** Mirror image of [v] about the axis [n]. *)
Definition vreflect (v n : Vec) : Vec :=
  vsub (vscale (2 * vdot v n)%float n) v.
(** Refraction of the direction [i] at a surface of normal [n], going from
    index [n1] to index [n2]; total internal reflection keeps [i]. *)
Definition vsnell (i n : Vec) (n1 n2 : double) : Vec :=
  let i := vunit i in
  let c := (- vdot n i)%float in
  let r := (n1 / n2)%float in
  let k := (1 - r * r * (1 - c * c))%float in
  if (k <? 0)%float then i
  else vadd (vscale r i) (vscale (r * c - sqrt k)%float n).

Definition cadd (a b : RGB) : RGB :=
  mkRGB (red a + red b) (green a + green b) (blue a + blue b)%float.
Definition cmul (a b : RGB) : RGB :=
  mkRGB (red a * red b) (green a * green b) (blue a * blue b)%float.
Definition cscale (k : double) (a : RGB) : RGB :=
  mkRGB (k * red a) (k * green a) (k * blue a)%float.

Definition black : RGB := mkRGB 0 0 0.
Definition origin : Vec := mkVec 0 0 0.
Definition defaultMat : Mat := mkMat black black 1 0 1 1.

Definition intercept (o : Obj) (eye ray : Vec) : double :=
  match o with
  | Wall x0 _ _ => ((x0 - vx eye) / vx ray)%float
  | Probe d _ => d
  end.

Definition normalAt (o : Obj) (p : Vec) : Vec :=
  match o with
  | Wall _ nx _ => mkVec nx 0 0
  | Probe _ _ => mkVec 0 0 1
  end.

Definition materialOf (o : Obj) : Z :=
  match o with Wall _ _ m => m | Probe _ m => m end.

(** Power with a small non-negative whole exponent, by repeated product. *)
Fixpoint powN (n : nat) (x y : double) : double :=
  match n with
  | O => 1%float
  | S n' => if (y <? 1)%float then 1%float else (x * powN n' x (y - 1))%float
  end.

#[export] Instance collaborators : Collaborators Vec RGB Scn Obj Mat Lamp := {
  algAdd := vadd;
  algSub := vsub;
  algScale := vscale;
  algUnit := vunit;
  algNorm := vnorm;
  algDot := vdot;
  algReflect := vreflect;
  algSnell := vsnell;
  colorAddition := cadd;
  colorMultiplication := cmul;
  colorScale := cscale;
  sceneGetObjectCount := fun s => Z.of_nat (length (s_objects s));
  sceneGetObject := fun s i => nth (Z.to_nat i) (s_objects s) (Probe DBL_MAX 0%Z);
  sceneGetLightCount := fun s => Z.of_nat (length (s_lights s));
  sceneGetLight := fun s i => nth (Z.to_nat i) (s_lights s) (mkLamp origin black);
  sceneGetMaterial := fun s i => nth (Z.to_nat i) (s_materials s) defaultMat;
  sceneGetAmbientLight := s_ambient;
  sceneGetBackgroundColor := fun s _ _ => s_background s;
  objIntercept := intercept;
  objNormalAt := normalAt;
  objTextureCoordinateAt := fun _ p => p;
  objInterceptExit := fun _ p _ => p;
  objGetMaterial := materialOf;
  materialGetDiffuse := fun m _ => m_diffuse m;
  materialGetSpecular := m_specular;
  materialGetSpecularExponent := m_specularExponent;
  materialGetReflectionFactor := m_reflectionFactor;
  materialGetRefractionIndex := m_refractionIndex;
  materialGetOpacity := m_opacity;
  lightGetPosition := lamp_position;
  lightGetColor := lamp_color;
  pow := powN 64
}.

Definition white : RGB := mkRGB 1 1 1.
Definition grey : RGB := mkRGB 0.5 0.5 0.5.
Definition sky : RGB := mkRGB 0.25 0.5 1.

(** Reflection factor 1, opacity 1: a perfect mirror. *)
Definition mirror : Mat := mkMat grey white 2 1 1 1.
(** Opacity 0.5, refraction index 1.5, no reflection. *)
Definition glass : Mat := mkMat grey white 2 0 1.5 0.5.
(** Opaque, matt. *)
Definition chalk : Mat := mkMat grey black 1 0 1 1.

Definition lamp0 : Lamp := mkLamp (mkVec 0 1 0) white.

(** Two mirrors facing each other at x = 1 and x = -1, one light. *)
Definition twoMirrors : Scn :=
  mkScn [Wall 1 (-1) 0%Z; Wall (-1) 1 0%Z] [lamp0] [mirror] grey sky.

(** No object at all. *)
Definition emptyScene : Scn := mkScn [] [lamp0] [chalk] grey sky.

(** One chalk wall at x = 1. *)
Definition oneWall : Scn := mkScn [Wall 1 (-1) 0%Z] [lamp0] [chalk] grey sky.

(** One glass wall at x = 1. *)
Definition glassWall : Scn := mkScn [Wall 1 (-1) 0%Z] [lamp0] [glass] grey sky.

(** A glass object met at distance 1 by every ray. *)
Definition glassFog : Scn := mkScn [Probe 1 0%Z] [lamp0] [glass] grey sky.

(** A single object whose intersection routine answers [DBL_MAX]. *)
Definition farProbe : Scn := mkScn [Probe DBL_MAX 0%Z] [lamp0] [chalk] grey sky.

(** Two opaque probes at distance 0.5. *)
Definition twoBlockers : Scn :=
  mkScn [Probe 0.5 0%Z; Probe 0.5 0%Z] [lamp0] [chalk] grey sky.

Definition xAxis : Vec := mkVec 1 0 0.

Definition world0 : World RGB := mkWorld black [].

(** The point where the x axis meets the wall at x = 1, the unit normal of
    that wall, and a position two units down the axis. *)
Definition hitPoint : Vec := mkVec 1 0 0.
Definition faceLeft : Vec := mkVec (-1) 0 0.
Definition farPoint : Vec := mkVec 2 0 0.

Definition wallRight : Obj := Wall 1 (-1) 0%Z.
Definition wallLeft : Obj := Wall (-1) 1 0%Z.

(** The rays that bounce between the two mirrors along the x axis. *)
Definition alongAxis (eye ray : Vec) : Prop :=
  (eye = origin /\ ray = xAxis) \/
  (eye = mkVec 1 0 0 /\ ray = mkVec (-1) 0 0) \/
  (eye = mkVec (-1) 0 0 /\ ray = xAxis).

End Demo.

(** Further scenes over the same collaborators. *)

Module Scenes.

Import Demo.

Local Open Scope float_scope.

(** The two mirrors with the light taken away. *)
Definition darkMirrors : Scn :=
  mkScn [wallRight; wallLeft] [] [mirror] grey sky.

(** The chalk wall lit by two lights. *)
Definition litWall : Scn :=
  mkScn [wallRight] [lamp0; mkLamp (mkVec 0 0 1) white] [chalk] grey sky.

(** An object met at distance 1 by every ray, transparent and reflecting
    at once. *)
Definition mirrorGlass : Mat := mkMat grey white 2 1 1.5 0.5.
Definition glassMirrorFog : Scn := mkScn [Probe 1 0%Z] [lamp0] [mirrorGlass] grey sky.

(** A colour that is not finite, as an overflowing shading leaves it, and
    the test that a colour is finite in all three components. *)
Definition glare : RGB := mkRGB infinity infinity infinity.
Definition finiteRGB (c : RGB) : bool :=
  (is_finite (red c) && is_finite (green c) && is_finite (blue c))%bool.

(** A light one twentieth of a unit away from the origin, on the x axis. *)
Definition nearLight : Vec := mkVec 0.05 0 0.

End Scenes.

Module DoubleOrder.

(** Order facts on floats, obtained from the specification of the
    comparison primitives over [spec_float]. *)

Local Ltac cmp_cases :=
  repeat match goal with
  | |- context [Pos.compare_cont Eq ?m ?n] =>
      change (Pos.compare_cont Eq m n) with (Pos.compare m n)
  | H : context [Pos.compare_cont Eq ?m ?n] |- _ =>
      change (Pos.compare_cont Eq m n) with (Pos.compare m n) in H
  end;
  repeat match goal with
  | H : context [Z.compare ?a ?b] |- _ =>
      destruct (Z.compare_spec a b); simpl in H; try discriminate H
  | H : context [Pos.compare ?a ?b] |- _ =>
      destruct (Pos.compare_spec a b); simpl in H; try discriminate H
  end;
  repeat match goal with
  | |- context [Z.compare ?a ?b] =>
      destruct (Z.compare_spec a b); simpl
  | |- context [Pos.compare ?a ?b] =>
      destruct (Pos.compare_spec a b); simpl
  end;
  subst; try reflexivity; try discriminate; try lia.

Lemma SFcompare_lt_trans (a b c : spec_float) :
  SFcompare a b = Some Lt -> SFcompare b c = Some Lt -> SFcompare a c = Some Lt.
Proof.
  destruct a as [[]|[]| |[] ma ea], b as [[]|[]| |[] mb eb],
           c as [[]|[]| |[] mc ec]; simpl; intros H1 H2;
    try discriminate; try reflexivity; cmp_cases.
Qed.

Lemma SFcompare_lt_eq (a b c : spec_float) :
  SFcompare a b = Some Lt -> SFcompare b c = Some Eq -> SFcompare a c = Some Lt.
Proof.
  destruct a as [[]|[]| |[] ma ea], b as [[]|[]| |[] mb eb],
           c as [[]|[]| |[] mc ec]; simpl; intros H1 H2;
    try discriminate; try reflexivity; cmp_cases.
Qed.

Lemma SFcompare_refl (a b : spec_float) (o : comparison) :
  SFcompare a b = Some o -> SFcompare b b = Some Eq.
Proof.
  destruct a as [[]|[]| |[] ma ea], b as [[]|[]| |[] mb eb]; simpl; intros H;
    try discriminate; try reflexivity;
    rewrite Z.compare_refl;
    change (Pos.compare_cont Eq mb mb) with (Pos.compare mb mb);
    rewrite Pos.compare_refl; reflexivity.
Qed.

Lemma SFcompare_total (a b : spec_float) (o1 o2 : comparison) :
  SFcompare a a = Some o1 -> SFcompare b b = Some o2 ->
  SFcompare a b = Some Lt \/ SFcompare b a = Some Lt \/ SFcompare b a = Some Eq.
Proof.
  destruct a as [[]|[]| |[] ma ea], b as [[]|[]| |[] mb eb]; simpl; intros H1 H2;
    try discriminate; auto;
    clear H1 H2;
    change (Pos.compare_cont Eq ma mb) with (Pos.compare ma mb);
    change (Pos.compare_cont Eq mb ma) with (Pos.compare mb ma);
    destruct (Z.compare_spec ea eb), (Z.compare_spec eb ea); try lia; auto;
    destruct (Pos.compare_spec ma mb), (Pos.compare_spec mb ma);
    simpl; try lia; auto.
Qed.

Lemma ltb_true (x y : double) :
  (x <? y)%float = true <-> SFcompare (Prim2SF x) (Prim2SF y) = Some Lt.
Proof.
  rewrite ltb_spec. unfold SFltb.
  destruct (SFcompare (Prim2SF x) (Prim2SF y)) as [[]|]; split; congruence.
Qed.

Lemma leb_true (x y : double) :
  (x <=? y)%float = true <->
  SFcompare (Prim2SF x) (Prim2SF y) = Some Lt \/
  SFcompare (Prim2SF x) (Prim2SF y) = Some Eq.
Proof.
  rewrite leb_spec. unfold SFleb.
  destruct (SFcompare (Prim2SF x) (Prim2SF y)) as [[]|]; split;
    try tauto; try congruence; intros [H|H]; congruence.
Qed.

Lemma ltb_trans (a b c : double) :
  (a <? b)%float = true -> (b <? c)%float = true -> (a <? c)%float = true.
Proof. rewrite !ltb_true. apply SFcompare_lt_trans. Qed.

Lemma ltb_leb_trans (a b c : double) :
  (a <? b)%float = true -> (b <=? c)%float = true -> (a <? c)%float = true.
Proof.
  rewrite !ltb_true, leb_true. intros H [H'|H'].
  - eapply SFcompare_lt_trans; eassumption.
  - eapply SFcompare_lt_eq; eassumption.
Qed.

Lemma ltb_leb (a b : double) :
  (a <? b)%float = true -> (a <=? b)%float = true.
Proof. rewrite ltb_true, leb_true. auto. Qed.

(** A value that compares above something is not a NaN, so it is below or
    equal to itself. *)
Lemma ltb_leb_refl (a b : double) :
  (a <? b)%float = true -> (b <=? b)%float = true.
Proof.
  rewrite ltb_true, leb_true. intros H. right. eapply SFcompare_refl, H.
Qed.

Lemma ltb_eqb_false (a b : double) :
  (a <? b)%float = true -> (a =? b)%float = false.
Proof.
  rewrite ltb_true, eqb_spec. unfold SFeqb. intros ->. reflexivity.
Qed.

(** Totality on values that are not NaN. *)
Lemma not_ltb_leb (a b x y : double) :
  (x <? a)%float = true -> (y <? b)%float = true ->
  (a <? b)%float = false -> (b <=? a)%float = true.
Proof.
  intros Ha Hb Hab. apply ltb_leb_refl in Ha, Hb.
  apply leb_true in Ha, Hb. apply leb_true.
  assert (Ha' : SFcompare (Prim2SF a) (Prim2SF a) = Some Eq)
    by (destruct Ha as [Ha|Ha]; [eapply SFcompare_refl, Ha | exact Ha]).
  assert (Hb' : SFcompare (Prim2SF b) (Prim2SF b) = Some Eq)
    by (destruct Hb as [Hb|Hb]; [eapply SFcompare_refl, Hb | exact Hb]).
  destruct (SFcompare_total _ _ _ _ Ha' Hb') as [H|[H|H]]; auto.
  apply ltb_true in H. congruence.
Qed.

End DoubleOrder.

(** * Properties *)

Section LoopFacts.

Lemma indices_of_nat_S (m : nat) :
  indices (Z.of_nat (S m)) = indices (Z.of_nat m) ++ [Z.of_nat m].
Proof.
  unfold indices. rewrite !Nat2Z.id, seq_S, map_app. reflexivity.
Qed.

Lemma In_indices (n i : Z) : In i (indices n) <-> 0 <= i < n.
Proof.
  unfold indices. rewrite in_map_iff. split.
  - intros [k [<- Hk]]. apply in_seq in Hk. lia.
  - intros H. exists (Z.to_nat i). split; [lia|]. apply in_seq. lia.
Qed.

Lemma indices_clamp (n : Z) : indices n = indices (Z.of_nat (Z.to_nat n)).
Proof. unfold indices. rewrite Nat2Z.id. reflexivity. Qed.

Lemma filter_none {B : Type} (p : B -> bool) (l : list B) :
  (forall x, In x l -> p x = false) -> filter p l = [].
Proof.
  induction l as [|x l IH]; intros H; simpl; [reflexivity|].
  rewrite (H x) by (left; reflexivity). apply IH.
  intros y Hy. apply H. right. exact Hy.
Qed.

End LoopFacts.

Section NearestAndShadow.

Context {Vector Color Scene Object Material Light : Type}.
Context {E : Collaborators Vector Color Scene Object Material Light}.

Import DoubleOrder.

Lemma scanned_S scene eye ray object m :
  scanned scene eye ray object (S m)
  = nearest_step scene eye ray (scanned scene eye ray object m) (Z.of_nat m).
Proof.
  unfold scanned. rewrite indices_of_nat_S, fold_left_app. reflexivity.
Qed.

Lemma getNearestObject_scanned scene eye ray object :
  getNearestObject scene eye ray object
  = scanned scene eye ray object (Z.to_nat (sceneGetObjectCount scene)).
Proof. unfold getNearestObject, scanned. rewrite <- indices_clamp. reflexivity. Qed.

(** Either nothing was stored and the answer is still [DBL_MAX], or an
    object was stored. *)
Lemma scanned_object scene eye ray object m :
  scanned scene eye ray object m = (DBL_MAX, object) \/
  exists o, snd (scanned scene eye ray object m) = Some o.
Proof.
  induction m as [|m IH]; [left; reflexivity|].
  rewrite scanned_S. unfold nearest_step.
  destruct (scanned scene eye ray object m) as [c o].
  destruct (_ && _)%bool; [right; eexists; reflexivity|exact IH].
Qed.

Lemma scanned_invariant scene eye ray object m :
  let dist := distanceAt scene eye ray in
  ((forall j, 0 <= j < Z.of_nat m -> accepted (dist j) = false) /\
   scanned scene eye ray object m = (DBL_MAX, object)) \/
  (exists i, 0 <= i < Z.of_nat m /\ accepted (dist i) = true /\
     scanned scene eye ray object m = (dist i, Some (sceneGetObject scene i)) /\
     (forall j, 0 <= j < Z.of_nat m -> accepted (dist j) = true ->
                (dist i <=? dist j)%float = true) /\
     (forall j, 0 <= j < i -> accepted (dist j) = true ->
                (dist i <? dist j)%float = true)).
Proof.
  intros dist. induction m as [|m IH].
  - left. split; [intros j Hj; lia | reflexivity].
  - rewrite scanned_S.
    destruct IH as [[Hnone Heq] | (i & Hi & Hacc & Heq & Hmin & Hfirst)];
      rewrite Heq; unfold nearest_step;
      fold (distanceAt scene eye ray (Z.of_nat m)); fold dist.
    + (* nothing accepted so far: the test is [accepted] itself *)
      destruct ((0.00001 <? dist (Z.of_nat m)) && (dist (Z.of_nat m) <? DBL_MAX))%float
        eqn:Htest.
      * right. exists (Z.of_nat m). split; [lia|]. split; [exact Htest|].
        split; [reflexivity|]. apply andb_prop in Htest as [Heps _]. split.
        -- intros j Hj Hj'. assert (j = Z.of_nat m \/ 0 <= j < Z.of_nat m) as [->|Hlt] by lia.
           ++ eapply ltb_leb_refl, Heps.
           ++ rewrite (Hnone j Hlt) in Hj'. discriminate.
        -- intros j Hj Hj'. rewrite (Hnone j Hj) in Hj'. discriminate.
      * left. split; [|reflexivity]. intros j Hj.
        assert (j = Z.of_nat m \/ 0 <= j < Z.of_nat m) as [->|Hlt] by lia;
          [exact Htest | exact (Hnone j Hlt)].
    + pose proof Hacc as Hacc'. apply andb_prop in Hacc' as [Hieps Himax].
      destruct ((0.00001 <? dist (Z.of_nat m)) && (dist (Z.of_nat m) <? dist i))%float
        eqn:Htest.
      * apply andb_prop in Htest as [Heps Hlt].
        right. exists (Z.of_nat m). split; [lia|]. split.
        { unfold accepted. rewrite Heps. simpl. eapply ltb_trans; eassumption. }
        split; [reflexivity|]. split.
        -- intros j Hj Hj'. assert (j = Z.of_nat m \/ 0 <= j < Z.of_nat m) as [->|Hjm] by lia.
           ++ eapply ltb_leb_refl, Heps.
           ++ apply ltb_leb. eapply ltb_leb_trans; [exact Hlt|]. apply Hmin; assumption.
        -- intros j Hj Hj'. eapply ltb_leb_trans; [exact Hlt|]. apply Hmin; [lia|assumption].
      * right. exists i. split; [lia|]. split; [exact Hacc|]. split; [reflexivity|].
        split; [|exact Hfirst].
        intros j Hj Hj'. assert (j = Z.of_nat m \/ 0 <= j < Z.of_nat m) as [->|Hjm] by lia.
        -- apply andb_prop in Hj' as [Heps _]. rewrite Heps in Htest. simpl in Htest.
           eapply not_ltb_leb; eassumption.
        -- apply Hmin; assumption.
Qed.

(** C3, as amended: [getNearestObject] returns the least intersection
    distance among the objects whose distance is strictly above the
    epsilon 1e-5 and strictly below [DBL_MAX], with the first object (in
    iteration order) attaining it stored in [*object]; when no object has
    such a distance it returns [DBL_MAX] and leaves [*object] as it was. *)
Theorem getNearestObject_least_accepted (scene : Scene) (eye ray : Vector)
  (object : option Object) :
  nearestSpec accepted scene eye ray object.
Proof.
  unfold nearestSpec. rewrite getNearestObject_scanned.
  set (n := sceneGetObjectCount scene).
  pose proof (scanned_invariant scene eye ray object (Z.to_nat n)) as Inv.
  cbv zeta in Inv.
  assert (Hrange : forall j, 0 <= j < Z.of_nat (Z.to_nat n) <-> 0 <= j < n) by lia.
  split.
  - intros Hnone. destruct Inv as [[_ Heq] | (i & Hi & Hacc & _)]; [exact Heq|].
    rewrite Hnone in Hacc by (apply Hrange; exact Hi). discriminate.
  - intros (k & Hk & Hkacc).
    destruct Inv as [[Hnone _] | (i & Hi & Hacc & Heq & Hmin & Hfirst)].
    + rewrite Hnone in Hkacc by (apply Hrange; exact Hk). discriminate.
    + exists i. split; [apply Hrange; exact Hi|]. split; [exact Hacc|].
      split; [exact Heq|]. split; [|exact Hfirst].
      intros j Hj. apply Hmin, Hrange, Hj.
Qed.

Lemma isInShadow_filter scene point rayToLight lightLocation :
  isInShadow scene point rayToLight lightLocation
  = fold_left PrimFloat.add
      (map (opacityAt scene)
           (filter (blocksLight scene point rayToLight lightLocation)
                   (indices (sceneGetObjectCount scene))))
      0%float.
Proof.
  unfold isInShadow.
  set (l := indices (sceneGetObjectCount scene)).
  generalize 0%float. induction l as [|i l IH]; intros acc; simpl; [reflexivity|].
  unfold shadow_step at 2. fold (distanceAt scene point rayToLight i).
  unfold blocksLight at 1. cbv zeta.
  destruct (_ && _)%bool; simpl; apply IH.
Qed.

(** C4: [isInShadow] is the sum, accumulated in iteration order from 0, of
    the material opacities of all the objects of the scene whose distance
    along the direction to the light is strictly between 0.1 and the
    distance from the point to the light; every object of the scene is in
    the range of that sum, nothing caps it, and it is 0 when no object
    qualifies. *)
Theorem isInShadow_sum_of_opacities (scene : Scene)
  (point rayToLight lightLocation : Vector) :
  let n := sceneGetObjectCount scene in
  let blocking := filter (blocksLight scene point rayToLight lightLocation) (indices n) in
  isInShadow scene point rayToLight lightLocation
    = fold_left PrimFloat.add (map (opacityAt scene) blocking) 0%float /\
  (forall i, In i blocking <->
     0 <= i < n /\
     (0.1 <? distanceAt scene point rayToLight i)%float = true /\
     (distanceAt scene point rayToLight i <? algNorm (algSub lightLocation point))%float = true) /\
  ((forall i, 0 <= i < n -> blocksLight scene point rayToLight lightLocation i = false) ->
   isInShadow scene point rayToLight lightLocation = 0%float).
Proof.
  cbv zeta. split; [apply isInShadow_filter|]. split.
  - intros i. rewrite filter_In, In_indices. unfold blocksLight. cbv zeta.
    rewrite andb_true_iff. tauto.
  - intros Hnone. rewrite isInShadow_filter.
    rewrite filter_none; [reflexivity|].
    intros i Hi. apply Hnone, In_indices, Hi.
Qed.

End NearestAndShadow.

Section Termination.

Context {Vector Color Scene Object Material Light : Type}.
Context {E : Collaborators Vector Color Scene Object Material Light}.

Lemma extendsBy_refl (P : Event -> Prop) (w : World Color) : extendsBy P w w.
Proof. exists []. split; [reflexivity | constructor]. Qed.

Lemma extendsBy_trans (P : Event -> Prop) (w1 w2 w3 : World Color) :
  extendsBy P w1 w2 -> extendsBy P w2 w3 -> extendsBy P w1 w3.
Proof.
  intros (n1 & H1 & F1) (n2 & H2 & F2). exists (n2 ++ n1). split.
  - rewrite H2, H1, app_assoc. reflexivity.
  - apply Forall_app. split; assumption.
Qed.

Lemma extendsBy_event (P : Event -> Prop) (e : Event) (c : Color) (w : World Color) :
  P e -> extendsBy P w (mkWorld c (e :: events w)).
Proof. intros He. exists [e]. split; [reflexivity | repeat constructor; exact He]. Qed.

Lemma extendsBy_lastColor (P : Event -> Prop) (c : Color) (w : World Color) :
  extendsBy P w (mkWorld c (events w)).
Proof. exists []. split; [reflexivity | constructor]. Qed.

Section Steps.

Variable P : Event -> Prop.

Local Abbreviation runs := (steps (Color := Color) (extendsBy P)).

Lemma steps_ret {A : Type} (a : A) : runs (ret a).
Proof. intros w. exists a, w. split; [reflexivity | apply extendsBy_refl]. Qed.

Lemma steps_bind {A B : Type} (m : M Color A) (k : A -> M Color B) :
  runs m -> (forall a, runs (k a)) -> runs (bind m k).
Proof.
  intros Hm Hk w. unfold bind. destruct (Hm w) as (a & w1 & -> & H1).
  destruct (Hk a w1) as (b & w2 & -> & H2).
  exists b, w2. split; [reflexivity | eapply extendsBy_trans; eassumption].
Qed.

Lemma steps_foldM {A B : Type} (f : A -> B -> M Color A) (l : list B) :
  (forall a b, runs (f a b)) -> forall a, runs (foldM f l a).
Proof.
  intros Hf. induction l as [|b l IH]; intros a; simpl.
  - apply steps_ret.
  - apply steps_bind; [apply Hf | exact IH].
Qed.

Lemma steps_tick (e : Event) : P e -> runs (tick e).
Proof.
  intros He w. eexists _, _. split; [reflexivity | apply extendsBy_event, He].
Qed.

(** [shade] returns as soon as the tracer it calls returns at the two
    depths it is called with. *)
Lemma steps_shade (rec : Tracer) (scene : Scene) (eye ray : Vector)
  (object : Object) (point normal : Vector) (depth : Z) :
  P (EvShade depth) ->
  (forall s e r, runs (rec s e r depth)) ->
  (forall s e r, runs (rec s e r (depth + 1))) ->
  runs (shade rec scene eye ray object point normal depth).
Proof.
  intros Hev Hsame Hnext. unfold shade.
  apply steps_bind; [apply steps_tick, Hev | intros _].
  apply steps_bind; [| intros; apply steps_ret].
  apply steps_foldM. intros [c r] k. unfold shade_light.
  apply steps_bind.
  - unfold shade_transparency. destruct (_ <? _)%float; [|apply steps_ret].
    apply steps_bind; [apply Hsame | intros; apply steps_ret].
  - intros v. apply steps_bind; [| intros; apply steps_ret].
    unfold shade_mirror. destruct (_ <? _)%float; [|apply steps_ret].
    apply steps_bind; [apply Hnext | intros; apply steps_ret].
Qed.

End Steps.

Lemma DBL_MAX_eqb : (DBL_MAX =? DBL_MAX)%float = true.
Proof. reflexivity. Qed.

(** When the answer of [getNearestObject] is not [DBL_MAX], an object was
    stored in [*object]. *)
Lemma getNearestObject_stored (scene : Scene) (eye ray : Vector)
  (d : double) (o : option Object) :
  getNearestObject scene eye ray None = (d, o) ->
  (d =? DBL_MAX)%float = false -> exists object, o = Some object.
Proof.
  rewrite getNearestObject_scanned. intros Heq Hd.
  destruct (scanned_object scene eye ray None
              (Z.to_nat (sceneGetObjectCount scene))) as [H | [x H]].
  - rewrite H in Heq. injection Heq as <- <-. rewrite DBL_MAX_eqb in Hd. discriminate.
  - rewrite Heq in H. exists x. exact H.
Qed.

(** The sentinel comes back exactly when no object has an accepted
    distance. *)
Lemma getNearestObject_sentinel_iff (scene : Scene) (eye ray : Vector)
  (object : option Object) :
  (fst (getNearestObject scene eye ray object) =? DBL_MAX)%float = true <->
  forall i, 0 <= i < sceneGetObjectCount scene ->
            accepted (distanceAt scene eye ray i) = false.
Proof.
  rewrite getNearestObject_scanned.
  destruct (scanned_invariant scene eye ray object
              (Z.to_nat (sceneGetObjectCount scene)))
    as [[Hnone ->] | (i & Hi & Hacc & -> & _)]; simpl fst.
  - split; [intros _ j Hj; apply Hnone; lia | intros _; apply DBL_MAX_eqb].
  - split.
    + intros Heq. apply andb_prop in Hacc as [_ Hlt].
      apply DoubleOrder.ltb_eqb_false in Hlt. congruence.
    + intros Hnone. rewrite Hnone in Hacc by lia. discriminate.
Qed.

Lemma fuelFor_below (depth : Z) :
  depth < MAX_DEPTH -> fuelFor depth = S (fuelFor (depth + 1)).
Proof. unfold fuelFor, MAX_DEPTH. intros H. f_equal. lia. Qed.

Lemma fuelFor_mono (d d' : Z) : d <= d' -> (fuelFor d' <= fuelFor d)%nat.
Proof. unfold fuelFor. lia. Qed.

Lemma steps_rayTrace (fuel : nat) :
  forall (scene : Scene) (eye ray : Vector) (depth : Z),
  (fuelFor depth <= fuel)%nat ->
  steps (extendsBy boundedEvent) (rayTrace fuel scene eye ray depth).
Proof.
  induction fuel as [|fuel IH]; intros scene eye ray depth Hfuel.
  - unfold fuelFor in Hfuel. lia.
  - simpl. apply steps_bind; [apply steps_tick; exact I | intros _].
    destruct (depth <? MAX_DEPTH) eqn:Hd.
    + apply Z.ltb_lt in Hd. rewrite (fuelFor_below depth Hd) in Hfuel.
      apply steps_bind; [apply steps_tick; exact I | intros _].
      destruct (getNearestObject scene eye ray None) as [distance o] eqn:Hnear.
      destruct (distance =? DBL_MAX)%float eqn:Hhit; [apply steps_ret|].
      destruct (getNearestObject_stored _ _ _ _ _ Hnear Hhit) as [object ->].
      apply steps_bind.
      * apply steps_shade; [simpl; lia | |]; intros s e r; apply IH; [lia|].
        pose proof (fuelFor_mono (depth + 1) (depth + 1 + 1)). lia.
      * intros c. apply steps_bind; [|intros _].
        -- intros w. eexists _, _. split; [reflexivity | apply extendsBy_lastColor].
        -- intros w. eexists _, _. split; [reflexivity | apply extendsBy_refl].
    + intros w. eexists _, _. split; [reflexivity | apply extendsBy_refl].
Qed.

(** C1: [rayTrace] returns for every scene, ray, starting depth and value of
    [lastColor].  A nesting of [fuelFor depth] calls is enough, which for a
    depth of 0 or more is at most [MAX_DEPTH] working levels and the
    closing no-op call; no shading is ever entered at a depth above
    [MAX_DEPTH].  A call at or above the limit returns [lastColor] and
    leaves in the trace nothing but itself: no intersection query, no
    shading, no further call, and [lastColor] unchanged. *)
Theorem rayTrace_terminates (fuel : nat) (scene : Scene) (eye ray : Vector)
  (depth : Z) (w : World Color) :
  (fuelFor depth <= fuel)%nat ->
  (0 <= depth -> (fuelFor depth <= S (Z.to_nat MAX_DEPTH))%nat) /\
  exists c w',
    rayTrace fuel scene eye ray depth w = Done c w' /\
    extendsBy boundedEvent w w' /\
    (MAX_DEPTH <= depth ->
       c = lastColor w /\
       w' = mkWorld (lastColor w) (EvRayTrace depth :: events w)).
Proof.
  intros Hfuel. split; [intros Hd; unfold fuelFor, MAX_DEPTH; lia|].
  destruct (steps_rayTrace fuel scene eye ray depth Hfuel w) as (c & w' & Hrun & Hext).
  exists c, w'. split; [exact Hrun|]. split; [exact Hext|].
  intros Hd. destruct fuel as [|fuel]; [unfold fuelFor in Hfuel; lia|].
  simpl in Hrun. unfold bind, tick in Hrun.
  apply Z.ltb_ge in Hd. rewrite Hd in Hrun. unfold getLastColor in Hrun. simpl in Hrun.
  injection Hrun as <- <-. split; reflexivity.
Qed.

(** One unfolding of [rayTrace] below the limit. *)
Lemma rayTrace_below (fuel : nat) (scene : Scene) (eye ray : Vector)
  (depth : Z) (w : World Color) :
  depth < MAX_DEPTH ->
  rayTrace (S fuel) scene eye ray depth w =
  let w1 := mkWorld (lastColor w) (EvNearest :: EvRayTrace depth :: events w) in
  let '(distance, object) := getNearestObject scene eye ray None in
  if (distance =? DBL_MAX)%float then
    Done (sceneGetBackgroundColor scene eye ray) w1
  else
    match object with
    | None => UninitialisedObject
    | Some object =>
      let point := algAdd eye (algScale distance ray) in
      let normal := algUnit (objNormalAt object point) in
      match shade (rayTrace fuel) scene eye ray object point normal (depth + 1) w1 with
      | Done c w2 => Done c (mkWorld c (events w2))
      | OutOfFuel => OutOfFuel
      | UninitialisedObject => UninitialisedObject
      end
    end.
Proof.
  intros Hd. apply Z.ltb_lt in Hd. simpl. unfold bind at 1, tick at 1.
  rewrite Hd. unfold bind at 1, tick at 1. cbv zeta. simpl.
  destruct (getNearestObject scene eye ray None) as [distance [object|]];
    destruct (distance =? DBL_MAX)%float; reflexivity.
Qed.

(** C2: below the depth limit, when [getNearestObject] answers the no-hit
    sentinel [DBL_MAX] (in particular when no object of the scene has an
    accepted distance along the ray), [rayTrace] returns exactly
    [sceneGetBackgroundColor scene eye ray]; it does so without shading,
    without a further call, and without touching [lastColor]. *)
Theorem rayTrace_no_hit_background (fuel : nat) (scene : Scene)
  (eye ray : Vector) (depth : Z) (w : World Color) :
  depth < MAX_DEPTH ->
  (fst (getNearestObject scene eye ray None) = DBL_MAX \/
   forall i, 0 <= i < sceneGetObjectCount scene ->
             accepted (distanceAt scene eye ray i) = false) ->
  rayTrace (S fuel) scene eye ray depth w =
  Done (sceneGetBackgroundColor scene eye ray)
       (mkWorld (lastColor w) (EvNearest :: EvRayTrace depth :: events w)).
Proof.
  intros Hd Hmiss. rewrite rayTrace_below by exact Hd. cbv zeta.
  assert (Hsent : fst (getNearestObject scene eye ray None) = DBL_MAX).
  { destruct Hmiss as [H|H]; [exact H|].
    rewrite getNearestObject_scanned.
    destruct (scanned_invariant scene eye ray None
                (Z.to_nat (sceneGetObjectCount scene))) as [[_ ->] | (i & Hi & Hacc & _)];
      [reflexivity|].
    rewrite H in Hacc by lia. discriminate. }
  destruct (getNearestObject scene eye ray None) as [distance object].
  simpl in Hsent. subst distance. rewrite DBL_MAX_eqb. reflexivity.
Qed.

(** C9, as amended: a trace call below the depth limit that hits an object
    returns with [lastColor] equal to the colour it returns; when no object
    is hit it returns the background colour and leaves [lastColor] as it
    was. *)
Theorem rayTrace_fallback_written_on_hit (fuel : nat) (scene : Scene)
  (eye ray : Vector) (depth : Z) (w : World Color) :
  depth < MAX_DEPTH ->
  (fuelFor depth <= fuel)%nat ->
  exists c w',
    rayTrace fuel scene eye ray depth w = Done c w' /\
    fallbackSpec scene eye ray w c w'.
Proof.
  intros Hd Hfuel. rewrite (fuelFor_below depth Hd) in Hfuel.
  destruct fuel as [|fuel]; [lia|].
  rewrite rayTrace_below by exact Hd. cbv zeta. unfold fallbackSpec.
  destruct (getNearestObject scene eye ray None) as [distance o] eqn:Hnear.
  simpl fst. destruct (distance =? DBL_MAX)%float eqn:Hhit.
  - eexists _, _. split; [reflexivity|]. split; [discriminate|].
    intros _. split; reflexivity.
  - destruct (getNearestObject_stored _ _ _ _ _ Hnear Hhit) as [object ->].
    set (w1 := mkWorld _ _).
    destruct (steps_shade boundedEvent (rayTrace fuel) scene eye ray object
                (algAdd eye (algScale distance ray))
                (algUnit (objNormalAt object (algAdd eye (algScale distance ray))))
                (depth + 1)) with (w := w1) as (c & w2 & Hshade & _).
    + simpl. lia.
    + intros s e r. apply steps_rayTrace. lia.
    + intros s e r. apply steps_rayTrace.
      pose proof (fuelFor_mono (depth + 1) (depth + 1 + 1)). lia.
    + rewrite Hshade. eexists _, _. split; [reflexivity|].
      split; [reflexivity | discriminate].
Qed.

End Termination.

Section ShadeBlocks.

Context {Vector Color Scene Object Material Light : Type}.
Context {E : Collaborators Vector Color Scene Object Material Light}.

(** Case analysis on every test and every answer of the tracer. *)
Local Ltac step_cases rec :=
  unfold lightStep, refractStep, refractedRay, mirrorStep, localLight, shadowed,
    bind, ret;
  cbv zeta; simpl fst; simpl snd;
  repeat first
    [ match goal with
      | |- context [if ?b then _ else _] => destruct b; simpl
      end
    | match goal with
      | |- context [rec ?x1 ?x2 ?x3 ?x4 ?x5] => destruct (rec x1 x2 x3 x4 x5); simpl
      end ];
  reflexivity.

Lemma foldM_ext {A B : Type} (f g : A -> B -> M Color A) (l : list B) :
  (forall a b w, f a b w = g a b w) ->
  forall a w, foldM f l a w = foldM g l a w.
Proof.
  intros Hfg. induction l as [|b l IH]; intros a w; simpl; [reflexivity|].
  unfold bind. rewrite Hfg. destruct (g a b w); auto.
Qed.

(** One iteration of the loop of [shade], on the values [shade] reads from
    the material of the object, is [lightStep]. *)
Lemma shade_light_lightStep (rec : Tracer) (scene : Scene) (eye : Vector)
  (object : Object) (point normal : Vector) (depth : Z)
  (cr : Color * Vector) (k : Z) (w : World Color) :
  let material := sceneGetMaterial scene (objGetMaterial object) in
  shade_light rec scene eye object point normal depth
    (materialGetDiffuse material (objTextureCoordinateAt object point))
    (materialGetSpecular material) (materialGetSpecularExponent material)
    (materialGetReflectionFactor material) (materialGetRefractionIndex material)
    (materialGetOpacity material) cr k w
  = lightStep rec scene eye object point normal depth cr k w.
Proof.
  cbv zeta. destruct cr as [c r].
  unfold shade_light, shade_transparency, shade_mirror, shade_specular, shade_diffuse.
  step_cases rec.
Qed.

(** [shade] is the fold of any step that agrees with [lightStep]. *)
Lemma shade_by_steps (rec : Tracer) (scene : Scene) (eye ray : Vector)
  (object : Object) (point normal : Vector) (depth : Z)
  (step : Color * Vector -> Z -> M Color (Color * Vector)) (w : World Color) :
  (forall cr k w0,
     lightStep rec scene eye object point normal depth cr k w0 = step cr k w0) ->
  shade rec scene eye ray object point normal depth w =
  (tick (EvShade depth) ;;;
   cr <- foldM step (indices (sceneGetLightCount scene))
           (shadeSeed scene object point, ray) ;;
   ret (fst cr)) w.
Proof.
  intros Hstep. unfold shade, shadeSeed. cbv zeta.
  unfold bind at 1 3, tick. unfold bind at 1 2.
  rewrite (foldM_ext _ step).
  - reflexivity.
  - intros cr k w0. rewrite <- Hstep. apply shade_light_lightStep.
Qed.

(** C5: in every iteration of the light loop of [shade], when the opacity
    of the material of the object is strictly below 1, the current [ray]
    is refracted into the object by Snell's law (1.00029 to the refraction
    index of the material), the exit point of that inner ray is asked of
    the object, the normal there is evaluated again and normalised, Snell's
    law is applied once more (refraction index to 1.00029), the resulting
    ray is traced from the exit point, and the accumulated [color] is
    replaced by [(1 - opacity)] times the traced colour added to [opacity]
    times itself, before the lighting of that light and the mirror are
    added; with an opacity not below 1 nothing of this happens. *)
Theorem shade_refracts_and_blends (rec : Tracer) (scene : Scene)
  (eye ray : Vector) (object : Object) (point normal : Vector) (depth : Z)
  (w : World Color) :
  let material := sceneGetMaterial scene (objGetMaterial object) in
  let opacity := materialGetOpacity material in
  let refractedIndex := materialGetRefractionIndex material in
  shade rec scene eye ray object point normal depth w =
  (tick (EvShade depth) ;;;
   cr <- foldM
     (fun (cr : Color * Vector) (k : Z) =>
        if (opacity <? 1)%float then
          let innerRay :=
            algSnell (snd cr) (objNormalAt object point) 1.00029%float refractedIndex in
          let exitPoint := objInterceptExit object point innerRay in
          let exitNormal := algUnit (objNormalAt object exitPoint) in
          let outRay :=
            algSnell innerRay (algScale (-1)%float exitNormal) refractedIndex
                     1.00029%float in
          transmitted <- rec scene exitPoint outRay depth ;;
          let blended := colorAddition (colorScale (1 - opacity)%float transmitted)
                                       (colorScale opacity (fst cr)) in
          color <- mirrorStep rec scene eye object point normal depth
                     (localLight scene eye object point normal blended k) ;;
          ret (color, outRay)
        else
          color <- mirrorStep rec scene eye object point normal depth
                     (localLight scene eye object point normal (fst cr) k) ;;
          ret (color, snd cr))
     (indices (sceneGetLightCount scene))
     (shadeSeed scene object point, ray) ;;
   ret (fst cr)) w.
Proof.
  cbv zeta. apply shade_by_steps. intros [c r] k w0. step_cases rec.
Qed.

Lemma rayTraceDepths_cons_ray (d : Z) (l : list Event) :
  rayTraceDepths (EvRayTrace d :: l) = rayTraceDepths l ++ [d].
Proof. unfold rayTraceDepths. simpl. rewrite flat_map_app. simpl. reflexivity. Qed.

Lemma rayTraceDepths_cons_shade (d : Z) (l : list Event) :
  rayTraceDepths (EvShade d :: l) = rayTraceDepths l.
Proof.
  unfold rayTraceDepths. simpl. rewrite flat_map_app. simpl. apply app_nil_r.
Qed.

Lemma shade_light_probe (c0 : Color) (scene : Scene) (eye : Vector)
  (object : Object) (point normal : Vector) (depth : Z)
  (diffuse specular : Color)
  (specularExponent reflectionFactor refractedIndex opacity : double)
  (cr : Color * Vector) (k : Z) (w : World Color) :
  exists cr' w',
    shade_light (probe c0) scene eye object point normal depth diffuse specular
      specularExponent reflectionFactor refractedIndex opacity cr k w = Done cr' w' /\
    rayTraceDepths (events w') =
      rayTraceDepths (events w) ++ callsPerLight opacity reflectionFactor depth.
Proof.
  unfold shade_light, shade_transparency, shade_mirror, callsPerLight, bind, ret, probe.
  destruct (opacity <? 1)%float; destruct (0 <? reflectionFactor)%float; simpl;
    eexists _, _; (split; [reflexivity|]); simpl;
    rewrite ?rayTraceDepths_cons_ray, ?app_nil_r, <- ?app_assoc; reflexivity.
Qed.

Lemma foldM_shade_light_probe (c0 : Color) (scene : Scene) (eye : Vector)
  (object : Object) (point normal : Vector) (depth : Z)
  (diffuse specular : Color)
  (specularExponent reflectionFactor refractedIndex opacity : double)
  (l : list Z) :
  forall (cr : Color * Vector) (w : World Color),
  exists cr' w',
    foldM (shade_light (probe c0) scene eye object point normal depth diffuse specular
             specularExponent reflectionFactor refractedIndex opacity) l cr w
      = Done cr' w' /\
    rayTraceDepths (events w') =
      rayTraceDepths (events w) ++
      flat_map (fun _ => callsPerLight opacity reflectionFactor depth) l.
Proof.
  induction l as [|k l IH]; intros cr w; simpl.
  - eexists _, _. split; [reflexivity|]. rewrite app_nil_r. reflexivity.
  - unfold bind at 1.
    destruct (shade_light_probe c0 scene eye object point normal depth diffuse specular
                specularExponent reflectionFactor refractedIndex opacity cr k w)
      as (cr1 & w1 & -> & H1).
    destruct (IH cr1 w1) as (cr2 & w2 & -> & H2).
    eexists _, _. split; [reflexivity|]. rewrite H2, H1, app_assoc. reflexivity.
Qed.

(** C6: the trace calls [shade] makes, light after light, are one call at
    the depth [shade] received when the opacity is below 1 (the refracted
    ray) followed by one call at that depth plus 1 when the reflection
    factor is strictly positive (the mirrored ray); in every iteration the
    colour of the mirrored ray is scaled by the reflection factor of the
    material and added to the accumulated [color], and with a factor that
    is not strictly positive nothing is traced or added for the mirror. *)
Theorem shade_trace_depths (c0 : Color) (rec : Tracer) (scene : Scene)
  (eye ray : Vector) (object : Object) (point normal : Vector) (depth : Z)
  (w : World Color) :
  let material := sceneGetMaterial scene (objGetMaterial object) in
  let opacity := materialGetOpacity material in
  let reflectionFactor := materialGetReflectionFactor material in
  (exists c w',
     shade (probe c0) scene eye ray object point normal depth w = Done c w' /\
     rayTraceDepths (events w') =
       rayTraceDepths (events w) ++
       flat_map (fun _ => callsPerLight opacity reflectionFactor depth)
                (indices (sceneGetLightCount scene))) /\
  shade rec scene eye ray object point normal depth w =
  (tick (EvShade depth) ;;;
   cr <- foldM
     (fun (cr : Color * Vector) (k : Z) =>
        cr1 <- (if (opacity <? 1)%float then
                  transmitted <-
                    rec scene (fst (refractedRay scene object point (snd cr)))
                        (snd (refractedRay scene object point (snd cr))) depth ;;
                  ret (colorAddition (colorScale (1 - opacity)%float transmitted)
                                     (colorScale opacity (fst cr)),
                       snd (refractedRay scene object point (snd cr)))
                else ret cr) ;;
        let lit := localLight scene eye object point normal (fst cr1) k in
        if (0 <? reflectionFactor)%float then
          reflected <-
            rec scene point (algReflect (algUnit (algSub eye point)) normal)
                (depth + 1) ;;
          ret (colorAddition lit (colorScale reflectionFactor reflected), snd cr1)
        else ret (lit, snd cr1))
     (indices (sceneGetLightCount scene))
     (shadeSeed scene object point, ray) ;;
   ret (fst cr)) w.
Proof.
  cbv zeta. split.
  - unfold shade. unfold bind at 1, tick at 1. unfold bind at 1.
    match goal with
    | |- context [foldM ?f ?l ?cr ?w1] =>
        destruct (foldM_shade_light_probe c0 scene eye object point normal depth
                    (materialGetDiffuse (sceneGetMaterial scene (objGetMaterial object))
                       (objTextureCoordinateAt object point))
                    (materialGetSpecular (sceneGetMaterial scene (objGetMaterial object)))
                    (materialGetSpecularExponent (sceneGetMaterial scene (objGetMaterial object)))
                    (materialGetReflectionFactor (sceneGetMaterial scene (objGetMaterial object)))
                    (materialGetRefractionIndex (sceneGetMaterial scene (objGetMaterial object)))
                    (materialGetOpacity (sceneGetMaterial scene (objGetMaterial object)))
                    l cr w1) as (cr' & w' & Hrun & Htrace)
    end.
    rewrite Hrun. eexists _, _. split; [reflexivity|].
    rewrite Htrace. simpl events. rewrite rayTraceDepths_cons_shade. reflexivity.
  - apply shade_by_steps. intros [c r] k w0. step_cases rec.
Qed.

(** C7: in every iteration of the light loop of [shade], after the
    transparency block and the diffuse block, the specular block adds to
    the accumulated [color] only when the dot product of the light
    direction reflected about the normal with the eye direction is
    strictly positive; what it adds is that dot product raised to the
    specular exponent of the material, times its specular colour, scaled
    by [1 - shadowFactor] exactly when the shadow factor [isInShadow] found
    for that light is not zero.  The opacity of the material does not
    scale it, whereas it scales the diffuse contribution; a dot product
    that is not positive adds nothing. *)
Theorem shade_adds_specular (rec : Tracer) (scene : Scene)
  (eye ray : Vector) (object : Object) (point normal : Vector) (depth : Z)
  (w : World Color) :
  let material := sceneGetMaterial scene (objGetMaterial object) in
  let diffuse := materialGetDiffuse material (objTextureCoordinateAt object point) in
  let specular := materialGetSpecular material in
  let specularExponent := materialGetSpecularExponent material in
  let opacity := materialGetOpacity material in
  shade rec scene eye ray object point normal depth w =
  (tick (EvShade depth) ;;;
   cr <- foldM
     (fun (cr : Color * Vector) (k : Z) =>
        cr1 <- refractStep rec scene object point depth cr ;;
        let softlight := lightGetPosition (sceneGetLight scene k) in
        let toEye := algUnit (algSub eye point) in
        let toLight := algUnit (algSub softlight point) in
        let shadowFactor := isInShadow scene point toLight softlight in
        let lambert := algDot normal toLight in
        let lit :=
          if ((0 <? opacity) && (0 <? lambert))%float
          then colorAddition (fst cr1)
                 (shadowed shadowFactor (colorScale opacity (colorScale lambert diffuse)))
          else fst cr1 in
        let dot := algDot (algReflect toLight normal) toEye in
        let contribution := colorScale (pow dot specularExponent) specular in
        let color :=
          if (0 <? dot)%float
          then colorAddition lit
                 (if negb (shadowFactor =? 0)%float
                  then colorScale (1 - shadowFactor)%float contribution
                  else contribution)
          else lit in
        color' <- mirrorStep rec scene eye object point normal depth color ;;
        ret (color', snd cr1))
     (indices (sceneGetLightCount scene))
     (shadeSeed scene object point, ray) ;;
   ret (fst cr)) w.
Proof.
  cbv zeta. apply shade_by_steps. intros [c r] k w0. step_cases rec.
Qed.

End ShadeBlocks.

Section LightColor.

Context {Vector Color Scene Object Material Light : Type}.
Variable E : Collaborators Vector Color Scene Object Material Light.
Variables f g : Light -> Color.

Local Abbreviation Ef := (withLightColor E f).
Local Abbreviation Eg := (withLightColor E g).

Lemma sameLive_transparency rec1 rec2 scene object point depth refractedIndex opacity
  v1 v2 w :
  sameTracer depth rec1 rec2 -> sameLive v1 v2 ->
  sameOutcome
    (shade_transparency (E := Ef) rec1 scene object point depth refractedIndex opacity v1 w)
    (shade_transparency (E := Eg) rec2 scene object point depth refractedIndex opacity v2 w).
Proof.
  intros Hrec [Hc Hr]. unfold shade_transparency.
  destruct (opacity <? 1)%float.
  - unfold bind. simpl. rewrite Hr, Hc, Hrec.
    destruct (rec2 _ _ _ _ _); simpl; auto. split; [split|]; reflexivity.
  - simpl. split; [split; assumption | reflexivity].
Qed.

Lemma sameLive_diffuse normal pointToLightRay diffuse opacity InterceptionOpacity v1 v2 :
  sameLive v1 v2 ->
  sameLive
    (shade_diffuse (E := Ef) normal pointToLightRay diffuse opacity InterceptionOpacity v1)
    (shade_diffuse (E := Eg) normal pointToLightRay diffuse opacity InterceptionOpacity v2).
Proof.
  intros [Hc Hr]. unfold shade_diffuse, sameLive. simpl.
  destruct (0 <? opacity)%float; [|auto].
  destruct (0 <? _)%float; [|auto].
  simpl. rewrite Hc, Hr. auto.
Qed.

Lemma sameLive_specular normal pointToLightRay pointToEyeRay specular specularExponent
  InterceptionOpacity v1 v2 :
  sameLive v1 v2 ->
  sameLive
    (shade_specular (E := Ef) normal pointToLightRay pointToEyeRay specular
       specularExponent InterceptionOpacity v1)
    (shade_specular (E := Eg) normal pointToLightRay pointToEyeRay specular
       specularExponent InterceptionOpacity v2).
Proof.
  intros [Hc Hr]. unfold shade_specular, sameLive. simpl.
  destruct (0 <? _)%float; [|auto].
  simpl. rewrite Hc, Hr. auto.
Qed.

Lemma sameLive_mirror rec1 rec2 scene point normal pointToEyeRay reflectionFactor depth
  v1 v2 w :
  sameTracer (depth + 1) rec1 rec2 -> sameLive v1 v2 ->
  sameOutcome
    (shade_mirror (E := Ef) rec1 scene point normal pointToEyeRay reflectionFactor depth v1 w)
    (shade_mirror (E := Eg) rec2 scene point normal pointToEyeRay reflectionFactor depth v2 w).
Proof.
  intros Hrec [Hc Hr]. unfold shade_mirror.
  destruct (0 <? reflectionFactor)%float.
  - unfold bind. simpl. rewrite Hrec.
    destruct (rec2 _ _ _ _ _); simpl; auto. rewrite Hc, Hr. split; [split|]; reflexivity.
  - simpl. split; [split; assumption | reflexivity].
Qed.

Lemma shade_light_lightColor rec1 rec2 scene eye object point normal depth diffuse
  specular specularExponent reflectionFactor refractedIndex opacity cr k w :
  sameTracer depth rec1 rec2 -> sameTracer (depth + 1) rec1 rec2 ->
  shade_light (E := Ef) rec1 scene eye object point normal depth diffuse specular
    specularExponent reflectionFactor refractedIndex opacity cr k w =
  shade_light (E := Eg) rec2 scene eye object point normal depth diffuse specular
    specularExponent reflectionFactor refractedIndex opacity cr k w.
Proof.
  intros Hrec Hrec'. unfold shade_light. cbv zeta. unfold bind at 1 3.
  match goal with
  | |- match ?a with _ => _ end = match ?b with _ => _ end =>
      assert (H1 : sameOutcome a b)
        by (apply sameLive_transparency; [exact Hrec | split; reflexivity]);
      destruct a as [v1 w1| |], b as [v2 w2| |]; simpl in H1; try contradiction;
        try reflexivity
  end.
  destruct H1 as [Hlive <-]. unfold bind.
  match goal with
  | |- match ?a with _ => _ end = match ?b with _ => _ end =>
      assert (H2 : sameOutcome a b)
        by (apply sameLive_mirror; [exact Hrec'|];
            apply sameLive_specular, sameLive_diffuse, Hlive);
      destruct a as [v3 w3| |], b as [v4 w4| |]; simpl in H2; try contradiction;
        try reflexivity
  end.
  destruct H2 as [[Hc Hr] <-]. unfold ret. rewrite Hc, Hr. reflexivity.
Qed.

Lemma shade_lightColor rec1 rec2 scene eye ray object point normal depth w :
  sameTracer depth rec1 rec2 -> sameTracer (depth + 1) rec1 rec2 ->
  shade (E := Ef) rec1 scene eye ray object point normal depth w =
  shade (E := Eg) rec2 scene eye ray object point normal depth w.
Proof.
  intros Hrec Hrec'. unfold shade. unfold bind at 1 3, tick. cbv zeta. unfold bind at 1 2.
  match goal with
  | |- match foldM ?F1 ?l ?cr ?w1 with _ => _ end
       = match foldM ?F2 ?l' ?cr' ?w1' with _ => _ end =>
      change l' with l; change cr' with cr;
      assert (Hfold : forall cr0 w0, foldM F1 l cr0 w0 = foldM F2 l cr0 w0)
  end.
  { induction (indices _) as [|k l IH]; intros cr0 w0; simpl; [reflexivity|].
    unfold bind. rewrite (shade_light_lightColor rec1 rec2) by assumption.
    match goal with |- match ?a with _ => _ end = _ => destruct a; auto end. }
  rewrite Hfold. reflexivity.
Qed.

Lemma rayTrace_lightColor (fuel : nat) (scene : Scene)
  (eye ray : Vector) (depth : Z) (w : World Color) :
  rayTrace (E := Ef) fuel scene eye ray depth w =
  rayTrace (E := Eg) fuel scene eye ray depth w.
Proof.
  revert scene eye ray depth w.
  induction fuel as [|fuel IH]; intros scene eye ray depth w; [reflexivity|].
  simpl. unfold bind at 1 3, tick. destruct (depth <? MAX_DEPTH); [|reflexivity].
  unfold bind at 1 3.
  change (getNearestObject (E := Eg) scene eye ray None)
    with (getNearestObject (E := Ef) scene eye ray None).
  destruct (getNearestObject scene eye ray None) as [distance [object|]];
    destruct (distance =? DBL_MAX)%float; try reflexivity.
  unfold bind.
  rewrite (shade_lightColor (rayTrace (E := Ef) fuel)
                            (rayTrace (E := Eg) fuel)).
  - reflexivity.
  - intros s e r w0. apply IH.
  - intros s e r w0. apply IH.
Qed.

(** The answer does not depend on the fuel, once there is enough of it. *)
Lemma rayTrace_fuel_lightColor (fuel1 : nat) :
  forall (fuel2 : nat) (scene : Scene) (eye ray : Vector) (depth : Z)
         (w : World Color),
  (fuelFor depth <= fuel1)%nat -> (fuelFor depth <= fuel2)%nat ->
  rayTrace (E := Ef) fuel1 scene eye ray depth w =
  rayTrace (E := Eg) fuel2 scene eye ray depth w.
Proof.
  induction fuel1 as [|fuel1 IH]; intros fuel2 scene eye ray depth w H1 H2;
    [unfold fuelFor in H1; lia|].
  destruct fuel2 as [|fuel2]; [unfold fuelFor in H2; lia|].
  simpl. unfold bind at 1 3, tick. destruct (depth <? MAX_DEPTH) eqn:Hd; [|reflexivity].
  apply Z.ltb_lt in Hd. rewrite (fuelFor_below depth Hd) in H1, H2.
  pose proof (fuelFor_mono (depth + 1) (depth + 1 + 1)) as Hmono.
  unfold bind at 1 3.
  change (getNearestObject (E := Eg) scene eye ray None)
    with (getNearestObject (E := Ef) scene eye ray None).
  destruct (getNearestObject scene eye ray None) as [distance [object|]];
    destruct (distance =? DBL_MAX)%float; try reflexivity.
  unfold bind.
  rewrite (shade_lightColor (rayTrace (E := Ef) fuel1)
                            (rayTrace (E := Eg) fuel2)).
  - reflexivity.
  - intros s e r w0. apply IH; lia.
  - intros s e r w0. apply IH; lia.
Qed.

End LightColor.

Lemma withLightColor_same {Vector Color Scene Object Material Light : Type}
  (E : Collaborators Vector Color Scene Object Material Light) :
  withLightColor E (lightGetColor (Collaborators := E)) = E.
Proof. destruct E. reflexivity. Qed.

(** With enough fuel the outcome of [rayTrace] is the same for any fuel:
    fuel is a device of the model, not an input of the program. *)
Lemma rayTrace_fuel_irrelevant {Vector Color Scene Object Material Light : Type}
  {E : Collaborators Vector Color Scene Object Material Light}
  (fuel1 fuel2 : nat) (scene : Scene) (eye ray : Vector) (depth : Z)
  (w : World Color) :
  (fuelFor depth <= fuel1)%nat -> (fuelFor depth <= fuel2)%nat ->
  rayTrace fuel1 scene eye ray depth w = rayTrace fuel2 scene eye ray depth w.
Proof.
  intros H1 H2.
  pose proof (rayTrace_fuel_lightColor E lightGetColor lightGetColor
                fuel1 fuel2 scene eye ray depth w H1 H2) as H.
  rewrite withLightColor_same in H. exact H.
Qed.

(** C10: the outcome of [rayTrace] -- the colour returned, [lastColor] and
    the trace of calls -- does not depend on the colours the lights report:
    with [lightGetColor] replaced by any other function [g], everything
    else (the positions of the lights included) the same, [rayTrace] gives
    the same result; so any two assignments of light colours agree. *)
Theorem rayTrace_ignores_light_color
  {Vector Color Scene Object Material Light : Type}
  (E : Collaborators Vector Color Scene Object Material Light)
  (g h : Light -> Color) (fuel : nat) (scene : Scene) (eye ray : Vector)
  (depth : Z) (w : World Color) :
  rayTrace (E := E) fuel scene eye ray depth w =
    rayTrace (E := withLightColor E g) fuel scene eye ray depth w /\
  rayTrace (E := withLightColor E g) fuel scene eye ray depth w =
    rayTrace (E := withLightColor E h) fuel scene eye ray depth w.
Proof.
  split; [|apply rayTrace_lightColor].
  transitivity (rayTrace (E := withLightColor E (lightGetColor (Collaborators := E)))
                  fuel scene eye ray depth w).
  - rewrite withLightColor_same. reflexivity.
  - apply rayTrace_lightColor.
Qed.

Lemma mirrorLevels_limit (depth : Z) : MAX_DEPTH <= depth -> mirrorLevels depth = O.
Proof.
  unfold mirrorLevels, MAX_DEPTH. intros H.
  assert ((6 - depth + 1) / 2 < 1) by (apply Z.div_lt_upper_bound; lia). lia.
Qed.

Lemma mirrorLevels_below (depth : Z) :
  depth < MAX_DEPTH -> mirrorLevels depth = S (mirrorLevels (depth + 1 + 1)).
Proof.
  unfold mirrorLevels, MAX_DEPTH. intros H.
  replace (6 - depth + 1) with ((6 - (depth + 1 + 1) + 1) + 1 * 2) by lia.
  rewrite Z.div_add by lia.
  assert (0 <= (6 - (depth + 1 + 1) + 1) / 2) by (apply Z.div_pos; lia). lia.
Qed.

Lemma length_indices (n : Z) : length (indices n) = Z.to_nat n.
Proof. unfold indices. rewrite length_map, length_seq. reflexivity. Qed.

(** No number of lights makes the calls after the primary one six. *)
Lemma mirrorCalls_not_MAX_DEPTH (L : nat) :
  (mirrorCalls L 3 - 1 <> Z.to_nat MAX_DEPTH)%nat.
Proof.
  destruct L as [|[|L]]; [discriminate | discriminate |].
  change (Z.to_nat MAX_DEPTH) with 6%nat. simpl mirrorCalls. nia.
Qed.

Section Mirrors.

Context {Vector Color Scene Object Material Light : Type}.
Context {E : Collaborators Vector Color Scene Object Material Light}.

Variable scene : Scene.
Variable between : Vector -> Vector -> Prop.
Hypothesis hall : mirrorHall scene between.

(** One light iteration on an opaque mirror: a single call, for the
    mirrored ray, two levels below the call that hit the mirror. *)
Lemma shade_light_mirror (rec : Tracer) (eye : Vector) (object : Object)
  (point normal : Vector) (depth : Z) (diffuse specular : Color)
  (specularExponent reflectionFactor refractedIndex opacity : double)
  (n : nat) (cr : Color * Vector) (k : Z) (w : World Color) :
  (opacity <? 1)%float = false ->
  (0 <? reflectionFactor)%float = true ->
  (forall w0, exists c w1,
     rec scene point (algReflect (algUnit (algSub eye point)) normal) (depth + 1) w0
       = Done c w1 /\
     rayTraceCalls (events w1) = (rayTraceCalls (events w0) + n)%nat) ->
  exists cr' w',
    shade_light rec scene eye object point normal depth diffuse specular
      specularExponent reflectionFactor refractedIndex opacity cr k w = Done cr' w' /\
    rayTraceCalls (events w') = (rayTraceCalls (events w) + n)%nat.
Proof.
  intros Hop Hre Hrec. unfold shade_light, shade_transparency, shade_mirror.
  rewrite Hop, Hre. cbv zeta. unfold bind, ret.
  destruct (Hrec w) as (c & w1 & -> & Hcalls).
  eexists _, _. split; [reflexivity | exact Hcalls].
Qed.

Lemma foldM_shade_light_mirror (rec : Tracer) (eye : Vector) (object : Object)
  (point normal : Vector) (depth : Z) (diffuse specular : Color)
  (specularExponent reflectionFactor refractedIndex opacity : double)
  (n : nat) (l : list Z) :
  (opacity <? 1)%float = false ->
  (0 <? reflectionFactor)%float = true ->
  (forall w0, exists c w1,
     rec scene point (algReflect (algUnit (algSub eye point)) normal) (depth + 1) w0
       = Done c w1 /\
     rayTraceCalls (events w1) = (rayTraceCalls (events w0) + n)%nat) ->
  forall (cr : Color * Vector) (w : World Color),
  exists cr' w',
    foldM (shade_light rec scene eye object point normal depth diffuse specular
             specularExponent reflectionFactor refractedIndex opacity) l cr w
      = Done cr' w' /\
    rayTraceCalls (events w') = (rayTraceCalls (events w) + length l * n)%nat.
Proof.
  intros Hop Hre Hrec. induction l as [|k l IH]; intros cr w; simpl.
  - eexists _, _. split; [reflexivity | lia].
  - unfold bind at 1.
    destruct (shade_light_mirror rec eye object point normal depth diffuse specular
                specularExponent reflectionFactor refractedIndex opacity n cr k w
                Hop Hre Hrec) as (cr1 & w1 & -> & H1).
    destruct (IH cr1 w1) as (cr2 & w2 & -> & H2).
    eexists _, _. split; [reflexivity | lia].
Qed.

Lemma rayTrace_mirror_calls (fuel : nat) :
  forall (eye ray : Vector) (depth : Z) (w : World Color),
  between eye ray ->
  (fuelFor depth <= fuel)%nat ->
  exists c w',
    rayTrace fuel scene eye ray depth w = Done c w' /\
    rayTraceCalls (events w') =
      (rayTraceCalls (events w)
       + mirrorCalls (Z.to_nat (sceneGetLightCount scene)) (mirrorLevels depth))%nat.
Proof.
  induction fuel as [|fuel IH]; intros eye ray depth w Hin Hfuel;
    [unfold fuelFor in Hfuel; lia|].
  destruct (Z.lt_ge_cases depth MAX_DEPTH) as [Hd|Hd].
  - rewrite rayTrace_below by exact Hd. cbv zeta.
    rewrite (fuelFor_below depth Hd) in Hfuel.
    destruct (hall eye ray Hin) as (distance & object & -> & -> & Hop & Hre & Hnext).
    unfold mirroredRay in Hnext. simpl in Hnext.
    set (point := algAdd eye (algScale distance ray)) in *.
    set (normal := algUnit (objNormalAt object point)) in *.
    set (material := sceneGetMaterial scene (objGetMaterial object)) in *.
    set (n := mirrorCalls (Z.to_nat (sceneGetLightCount scene))
                (mirrorLevels (depth + 1 + 1))).
    assert (Hrec : forall w0, exists c w1,
               rayTrace fuel scene point
                 (algReflect (algUnit (algSub eye point)) normal) (depth + 1 + 1) w0
                 = Done c w1 /\
               rayTraceCalls (events w1) = (rayTraceCalls (events w0) + n)%nat).
    { intros w0. apply IH; [exact Hnext|].
      pose proof (fuelFor_mono (depth + 1) (depth + 1 + 1)). lia. }
    unfold shade. cbv zeta. unfold bind at 1, tick at 1. unfold bind at 1.
    match goal with
    | |- context [foldM ?F ?l ?cr0 ?w1] =>
        destruct (foldM_shade_light_mirror (rayTrace fuel) eye object point normal
                    (depth + 1)
                    (materialGetDiffuse material (objTextureCoordinateAt object point))
                    (materialGetSpecular material)
                    (materialGetSpecularExponent material)
                    (materialGetReflectionFactor material)
                    (materialGetRefractionIndex material)
                    (materialGetOpacity material)
                    n l Hop Hre Hrec cr0 w1) as (cr' & w' & Hrun & Hcalls)
    end.
    clear Hrec. subst material normal point. cbv zeta in Hrun |- *.
    rewrite Hrun. unfold ret. eexists _, _. split; [reflexivity|].
    simpl events. rewrite Hcalls. simpl events. simpl rayTraceCalls.
    rewrite length_indices, (mirrorLevels_below depth Hd). simpl mirrorCalls.
    fold n. lia.
  - simpl. unfold bind, tick, getLastColor.
    apply Z.ltb_ge in Hd. rewrite Hd. eexists _, _. split; [reflexivity|].
    apply Z.ltb_ge in Hd. rewrite (mirrorLevels_limit depth Hd). simpl. lia.
Qed.

Lemma rayTraceDepths_cons_nearest (l : list Event) :
  rayTraceDepths (EvNearest :: l) = rayTraceDepths l.
Proof.
  unfold rayTraceDepths. simpl. rewrite flat_map_app. simpl. apply app_nil_r.
Qed.

(** The light loop on an opaque mirror, with the colour, the [lastColor]
    and the depths each reflected call leaves. *)
Lemma foldM_shade_light_mirror_trace (rec : Tracer) (eye : Vector) (object : Object)
  (point normal : Vector) (depth : Z) (T : Color -> Color * Color) (D : list Z)
  (l : list Z) :
  let material := sceneGetMaterial scene (objGetMaterial object) in
  (materialGetOpacity material <? 1)%float = false ->
  (0 <? materialGetReflectionFactor material)%float = true ->
  (forall w0, exists x w1,
     rec scene point (algReflect (algUnit (algSub eye point)) normal) (depth + 1) w0
       = Done x w1 /\
     (x, lastColor w1) = T (lastColor w0) /\
     rayTraceDepths (events w1) = rayTraceDepths (events w0) ++ D) ->
  forall (cr : Color * Vector) (w : World Color),
  exists cr' w',
    foldM (shade_light rec scene eye object point normal depth
             (materialGetDiffuse material (objTextureCoordinateAt object point))
             (materialGetSpecular material) (materialGetSpecularExponent material)
             (materialGetReflectionFactor material) (materialGetRefractionIndex material)
             (materialGetOpacity material)) l cr w
      = Done cr' w' /\
    (fst cr', lastColor w') =
      fold_left
        (fun (st : Color * Color) (i : Z) =>
           (colorAddition (localLight scene eye object point normal (fst st) i)
                          (colorScale (materialGetReflectionFactor material)
                                      (fst (T (snd st)))),
            snd (T (snd st))))
        l (fst cr, lastColor w) /\
    rayTraceDepths (events w') = rayTraceDepths (events w) ++ flat_map (fun _ => D) l.
Proof.
  cbv zeta. intros Hop Hre Hrec.
  induction l as [|k l IH]; intros cr w; simpl.
  - eexists _, _. split; [reflexivity|]. split; [reflexivity|].
    rewrite app_nil_r. reflexivity.
  - unfold bind at 1. rewrite shade_light_lightStep.
    unfold lightStep, refractStep, mirrorStep. cbv zeta. rewrite Hop, Hre.
    unfold bind at 1 2, ret at 1. unfold bind at 1.
    destruct (Hrec w) as (x & w1 & -> & HT & HD). unfold ret at 1 2.
    match goal with
    | |- context [foldM _ l ?cr1 w1] => destruct (IH cr1 w1) as (cr2 & w2 & -> & Hc & Hd)
    end.
    eexists _, _. split; [reflexivity|]. simpl fst in Hc. simpl snd in Hc.
    rewrite <- HT. simpl fst. simpl snd. split; [exact Hc|].
    rewrite Hd, HD, app_assoc. reflexivity.
Qed.

Lemma rayTrace_mirror_trace (fuel : nat) :
  forall (eye ray : Vector) (depth : Z) (w : World Color),
  between eye ray ->
  (fuelFor depth <= fuel)%nat ->
  exists c w',
    rayTrace fuel scene eye ray depth w = Done c w' /\
    (c, lastColor w') =
      mirrorTrace scene (indices (sceneGetLightCount scene)) (mirrorLevels depth)
                  eye ray (lastColor w) /\
    rayTraceDepths (events w') =
      rayTraceDepths (events w)
      ++ mirrorDepths (indices (sceneGetLightCount scene)) (mirrorLevels depth) depth.
Proof.
  induction fuel as [|fuel IH]; intros eye ray depth w Hin Hfuel;
    [unfold fuelFor in Hfuel; lia|].
  destruct (Z.lt_ge_cases depth MAX_DEPTH) as [Hd|Hd].
  - rewrite rayTrace_below by exact Hd. cbv zeta.
    rewrite (fuelFor_below depth Hd) in Hfuel.
    rewrite (mirrorLevels_below depth Hd). simpl mirrorTrace. simpl mirrorDepths.
    destruct (hall eye ray Hin) as (distance & object & -> & -> & Hop & Hre & Hnext).
    unfold mirroredRay in Hnext. simpl in Hnext.
    set (point := algAdd eye (algScale distance ray)) in *.
    set (normal := algUnit (objNormalAt object point)) in *.
    set (lights := indices (sceneGetLightCount scene)).
    set (k := mirrorLevels (depth + 1 + 1)).
    assert (Hrec : forall w0, exists x w1,
               rayTrace fuel scene point
                 (algReflect (algUnit (algSub eye point)) normal) (depth + 1 + 1) w0
                 = Done x w1 /\
               (x, lastColor w1) =
                 mirrorTrace scene lights k point
                   (algReflect (algUnit (algSub eye point)) normal) (lastColor w0) /\
               rayTraceDepths (events w1) =
                 rayTraceDepths (events w0) ++ mirrorDepths lights k (depth + 1 + 1)).
    { intros w0. apply IH; [exact Hnext|].
      pose proof (fuelFor_mono (depth + 1) (depth + 1 + 1)). lia. }
    unfold shade. cbv zeta. unfold bind at 1, tick at 1. unfold bind at 1.
    match goal with
    | |- context [foldM _ ?l ?cr0 ?w1] =>
        destruct (foldM_shade_light_mirror_trace (rayTrace fuel) eye object point normal
                    (depth + 1)
                    (mirrorTrace scene lights k point
                       (algReflect (algUnit (algSub eye point)) normal))
                    (mirrorDepths lights k (depth + 1 + 1))
                    l Hop Hre Hrec cr0 w1) as (cr' & w' & Hrun & Hcol & Hdep)
    end.
    clear Hrec. subst lights k normal point. rewrite Hrun. unfold ret.
    eexists _, _. split; [reflexivity|].
    simpl lastColor. simpl events. simpl fst in Hcol. simpl snd in Hcol.
    simpl lastColor in Hcol. simpl events in Hdep.
    rewrite rayTraceDepths_cons_shade, rayTraceDepths_cons_nearest,
      rayTraceDepths_cons_ray in Hdep.
    split.
    + unfold shadeSeed. cbv zeta. rewrite <- Hcol. reflexivity.
    + rewrite Hdep, <- app_assoc. reflexivity.
  - simpl. unfold bind, tick, getLastColor.
    apply Z.ltb_ge in Hd. rewrite Hd. eexists _, _. split; [reflexivity|].
    apply Z.ltb_ge in Hd. rewrite (mirrorLevels_limit depth Hd). simpl.
    split; [reflexivity | apply rayTraceDepths_cons_ray].
Qed.

End Mirrors.

Section MirrorClaim.

Context {Vector Color Scene Object Material Light : Type}.
Context {E : Collaborators Vector Color Scene Object Material Light}.

(** C8, as amended: in a scene of facing opaque mirrors (every ray of the
    set [between] hits a mirror of positive reflection factor and opacity
    not below 1, and its reflection is again in the set), tracing a primary
    ray of the set at depth 0 returns, and with [L] lights it makes
    1 + L + L^2 + L^3 calls of [rayTrace] in all: the depth goes up by two
    from one reflection to the next, so the chain 0, 2, 4 does the work
    and the calls at depth 6 are no-ops.  With one light that is the
    primary call and three recursive calls, at depths 2, 4 and 6; for no
    number of lights is the number of recursive calls [MAX_DEPTH].  The
    colour returned, which is also the [lastColor] left, is [mirrorTrace]:
    the shading of the three hits with the [lastColor] found on entry
    standing for what the calls at depth 6 see; it is finite only as far
    as that value and the colour operations make it so. *)
Theorem rayTrace_mirror_call_count (fuel : nat) (scene : Scene)
  (between : Vector -> Vector -> Prop) (eye ray : Vector) (w : World Color) :
  mirrorHall scene between ->
  between eye ray ->
  (fuelFor 0 <= fuel)%nat ->
  let L := Z.to_nat (sceneGetLightCount scene) in
  let lights := indices (sceneGetLightCount scene) in
  exists c w',
    rayTrace fuel scene eye ray 0 w = Done c w' /\
    rayTraceCalls (events w') =
      (rayTraceCalls (events w) + (1 + L + L * L + L * L * L))%nat /\
    (L = 1%nat -> rayTraceCalls (events w') = (rayTraceCalls (events w) + 1 + 3)%nat) /\
    (rayTraceCalls (events w') - rayTraceCalls (events w) - 1 <> Z.to_nat MAX_DEPTH)%nat /\
    rayTraceDepths (events w') = rayTraceDepths (events w) ++ mirrorDepths lights 3 0 /\
    (sceneGetLightCount scene = 1 ->
     rayTraceDepths (events w') = rayTraceDepths (events w) ++ [0; 2; 4; 6]) /\
    (c, lastColor w') = mirrorTrace scene lights 3 eye ray (lastColor w).
Proof.
  intros Hhall Hin Hfuel L lights.
  destruct (rayTrace_mirror_calls scene between Hhall fuel eye ray 0 w Hin Hfuel)
    as (c & w' & Hrun & Hcalls).
  destruct (rayTrace_mirror_trace scene between Hhall fuel eye ray 0 w Hin Hfuel)
    as (c2 & w2 & Hrun2 & Hcol & Hdep).
  rewrite Hrun in Hrun2. injection Hrun2 as <- <-.
  exists c, w'. split; [exact Hrun|].
  change (mirrorLevels 0) with 3%nat in Hcalls, Hcol, Hdep. fold L in Hcalls.
  pose proof (mirrorCalls_not_MAX_DEPTH L) as Hnot.
  simpl mirrorCalls in Hcalls, Hnot.
  split; [rewrite Hcalls; nia|].
  split; [intros HL; rewrite Hcalls, HL; simpl; lia|].
  split; [rewrite Hcalls; intros Heq; apply Hnot; rewrite <- Heq; lia|].
  split; [exact Hdep|].
  split; [|exact Hcol].
  intros HL. rewrite Hdep. unfold lights. rewrite HL. reflexivity.
Qed.

End MirrorClaim.

(** * The model on concrete scenes *)

Section Concrete.

Import Demo.

(** C1, on the two mirrors from depth 0 with 7 units of fuel. *)
Lemma rayTrace_terminates_witness :
  (fuelFor 0 <= 7)%nat /\
  ((0 <= 0 -> (fuelFor 0 <= S (Z.to_nat MAX_DEPTH))%nat) /\
   exists c w',
     rayTrace 7 twoMirrors origin xAxis 0 world0 = Done c w' /\
     extendsBy boundedEvent world0 w' /\
     (MAX_DEPTH <= 0 ->
        c = lastColor world0 /\
        w' = mkWorld (lastColor world0) (EvRayTrace 0 :: events world0))).
Proof.
  assert (H : (fuelFor 0 <= 7)%nat) by (vm_compute; lia).
  split; [exact H | exact (rayTrace_terminates 7 twoMirrors origin xAxis 0 world0 H)].
Defined.

(** A call at the limit: the trace gains the call itself and nothing else. *)
Example rayTrace_at_limit :
  rayTrace 1 twoMirrors origin xAxis 6 world0 = Done black (mkWorld black [EvRayTrace 6]).
Proof. reflexivity. Qed.

(** A chain of refractions uses all [MAX_DEPTH] working levels: seven
    nested calls are needed, and they are enough. *)
Example rayTrace_glass_chain :
  rayTrace 6 glassFog origin xAxis 0 world0 = OutOfFuel /\
  exists c w',
    rayTrace 7 glassFog origin xAxis 0 world0 = Done c w' /\
    rayTraceDepths (events w') = [0; 1; 2; 3; 4; 5; 6].
Proof.
  split; [vm_compute; reflexivity|].
  eexists _, _. split; vm_compute; reflexivity.
Qed.

(** C2, on the scene without objects. *)
Lemma rayTrace_no_hit_background_witness :
  0 < MAX_DEPTH /\
  (fst (getNearestObject emptyScene origin xAxis None) = DBL_MAX \/
   forall i, 0 <= i < sceneGetObjectCount emptyScene ->
             accepted (distanceAt emptyScene origin xAxis i) = false) /\
  rayTrace 1 emptyScene origin xAxis 0 world0 =
  Done (sceneGetBackgroundColor emptyScene origin xAxis)
       (mkWorld (lastColor world0) (EvNearest :: EvRayTrace 0 :: events world0)).
Proof.
  assert (H1 : 0 < MAX_DEPTH) by reflexivity.
  assert (H2 : fst (getNearestObject emptyScene origin xAxis None) = DBL_MAX \/
               forall i, 0 <= i < sceneGetObjectCount emptyScene ->
                         accepted (distanceAt emptyScene origin xAxis i) = false)
    by (left; reflexivity).
  split; [exact H1|]. split; [exact H2|].
  exact (rayTrace_no_hit_background 0 emptyScene origin xAxis 0 world0 H1 H2).
Defined.

(** C3 as stated fails on an object whose distance is [DBL_MAX]: the object
    is above the epsilon, so it qualifies and is the nearest, yet
    [getNearestObject] stores no object. *)
Lemma getNearestObject_misses_DBL_MAX_distance :
  ~ nearestSpec exceedsEpsilon farProbe origin xAxis None.
Proof.
  intros [_ H].
  destruct H as (i & _ & _ & Heq & _).
  - exists 0. split; [vm_compute; split; [discriminate | reflexivity] | reflexivity].
  - change (getNearestObject farProbe origin xAxis None) with (DBL_MAX, @None Obj) in Heq.
    discriminate Heq.
Qed.

(** C3 as amended, on the two mirrors seen from the origin: the wall at
    x = 1 is the one accepted object (the other is behind the eye). *)
Lemma getNearestObject_least_accepted_witness :
  exists i, 0 <= i < sceneGetObjectCount twoMirrors /\
    accepted (distanceAt twoMirrors origin xAxis i) = true /\
    getNearestObject twoMirrors origin xAxis None
      = (distanceAt twoMirrors origin xAxis i, Some (sceneGetObject twoMirrors i)) /\
    (forall j, 0 <= j < sceneGetObjectCount twoMirrors ->
       accepted (distanceAt twoMirrors origin xAxis j) = true ->
       (distanceAt twoMirrors origin xAxis i <=? distanceAt twoMirrors origin xAxis j)%float
         = true) /\
    (forall j, 0 <= j < i ->
       accepted (distanceAt twoMirrors origin xAxis j) = true ->
       (distanceAt twoMirrors origin xAxis i <? distanceAt twoMirrors origin xAxis j)%float
         = true).
Proof.
  destruct (getNearestObject_least_accepted twoMirrors origin xAxis None) as [_ H].
  apply H. exists 0. split; [split; [discriminate | reflexivity] | reflexivity].
Defined.

(** On the far probe nothing is accepted, and the sentinel comes back. *)
Example getNearestObject_farProbe :
  getNearestObject farProbe origin xAxis None = (DBL_MAX, None).
Proof. reflexivity. Qed.

Example getNearestObject_twoMirrors :
  getNearestObject twoMirrors origin xAxis None = (1%float, Some wallRight).
Proof. reflexivity. Qed.

(** C4, on two opaque blockers between the origin and a light two units
    away. *)
Lemma isInShadow_sum_of_opacities_witness :
  isInShadow twoBlockers origin xAxis farPoint
  = fold_left PrimFloat.add
      (map (opacityAt twoBlockers)
           (filter (blocksLight twoBlockers origin xAxis farPoint) (indices 2)))
      0%float.
Proof.
  exact (proj1 (isInShadow_sum_of_opacities twoBlockers origin xAxis farPoint)).
Defined.

(** The two blockers add up to 2, above 1. *)
Example isInShadow_not_clamped :
  isInShadow twoBlockers origin xAxis farPoint = 2%float /\
  (1 <? isInShadow twoBlockers origin xAxis farPoint)%float = true.
Proof. split; reflexivity. Qed.

(** C5, on the glass wall hit at (1, 0, 0): opacity 0.5, index 1.5. *)
Lemma shade_refracts_and_blends_witness :
  shade (rayTrace (E := collaborators) 6) glassWall origin xAxis wallRight hitPoint
        faceLeft 1 world0 =
  (tick (EvShade 1) ;;;
   cr <- foldM
     (fun (cr : RGB * Vec) (k : Z) =>
        let innerRay :=
          algSnell (snd cr) (objNormalAt wallRight hitPoint) 1.00029%float 1.5%float in
        let exitPoint := objInterceptExit wallRight hitPoint innerRay in
        let exitNormal := algUnit (objNormalAt wallRight exitPoint) in
        let outRay :=
          algSnell innerRay (algScale (-1)%float exitNormal) 1.5%float 1.00029%float in
        transmitted <- rayTrace (E := collaborators) 6 glassWall exitPoint outRay 1 ;;
        let blended := colorAddition (colorScale (1 - 0.5)%float transmitted)
                                     (colorScale 0.5%float (fst cr)) in
        color <- mirrorStep (rayTrace (E := collaborators) 6) glassWall origin wallRight
                   hitPoint faceLeft 1
                   (localLight glassWall origin wallRight hitPoint faceLeft blended k) ;;
        ret (color, outRay))
     [0]
     (shadeSeed glassWall wallRight hitPoint, xAxis) ;;
   ret (fst cr)) world0.
Proof.
  exact (shade_refracts_and_blends (rayTrace (E := collaborators) 6) glassWall origin
           xAxis wallRight hitPoint faceLeft 1 world0).
Defined.

(** The same run, evaluated: the background is seen through the glass at
    half strength, the wall's own colour at the other half. *)
Example shade_glass_blend :
  exists transmitted w1 c w',
    rayTrace (E := collaborators) 6 glassWall hitPoint
             (snd (refractedRay glassWall wallRight hitPoint xAxis)) 1
             (mkWorld black [EvShade 1]) = Done transmitted w1 /\
    transmitted = sky /\
    shade (rayTrace (E := collaborators) 6) glassWall origin xAxis wallRight hitPoint
          faceLeft 1 world0 = Done c w' /\
    c = localLight glassWall origin wallRight hitPoint faceLeft
          (cadd (cscale 0.5%float sky)
                (cscale 0.5%float (shadeSeed glassWall wallRight hitPoint))) 0.
Proof. eexists _, _, _, _. repeat split; vm_compute; reflexivity. Qed.

(** C6: the calls [shade] makes on the glass wall and on a mirror. *)
Example shade_depths_glass :
  exists c w',
    shade (probe white) glassWall origin xAxis wallRight hitPoint faceLeft
          1 world0 = Done c w' /\
    rayTraceDepths (events w') = [1].
Proof. eexists _, _. split; vm_compute; reflexivity. Qed.

Example shade_depths_mirror :
  exists c w',
    shade (probe white) twoMirrors origin xAxis wallRight hitPoint faceLeft
          1 world0 = Done c w' /\
    rayTraceDepths (events w') = [2].
Proof. eexists _, _. split; vm_compute; reflexivity. Qed.

(** C6, on a mirror of the two: no refraction, one mirrored ray traced at
    depth 2, its colour added at full strength. *)
Lemma shade_trace_depths_witness :
  (exists c w',
     shade (probe white) twoMirrors origin xAxis wallRight hitPoint faceLeft 1 world0
       = Done c w' /\
     rayTraceDepths (events w') = [2]) /\
  shade (rayTrace (E := collaborators) 5) twoMirrors origin xAxis wallRight hitPoint
        faceLeft 1 world0 =
  (tick (EvShade 1) ;;;
   cr <- foldM
     (fun (cr : RGB * Vec) (k : Z) =>
        let lit := localLight twoMirrors origin wallRight hitPoint faceLeft (fst cr) k in
        reflected <-
          rayTrace (E := collaborators) 5 twoMirrors hitPoint
                   (algReflect (algUnit (algSub origin hitPoint)) faceLeft) (1 + 1) ;;
        ret (colorAddition lit (colorScale 1%float reflected), snd cr))
     [0]
     (shadeSeed twoMirrors wallRight hitPoint, xAxis) ;;
   ret (fst cr)) world0.
Proof.
  exact (shade_trace_depths white (rayTrace (E := collaborators) 5) twoMirrors origin
           xAxis wallRight hitPoint faceLeft 1 world0).
Defined.

(** C7, on the chalk wall under two lights. *)
Lemma shade_adds_specular_witness :
  shade (rayTrace (E := collaborators) 6) Scenes.litWall origin xAxis wallRight hitPoint
        faceLeft 1 world0 =
  (tick (EvShade 1) ;;;
   cr <- foldM
     (fun (cr : RGB * Vec) (k : Z) =>
        let softlight := lightGetPosition (sceneGetLight Scenes.litWall k) in
        let toEye := algUnit (algSub origin hitPoint) in
        let toLight := algUnit (algSub softlight hitPoint) in
        let shadowFactor := isInShadow Scenes.litWall hitPoint toLight softlight in
        let lambert := algDot faceLeft toLight in
        let lit :=
          if ((0 <? 1) && (0 <? lambert))%float
          then colorAddition (fst cr)
                 (shadowed shadowFactor (colorScale 1%float (colorScale lambert grey)))
          else fst cr in
        let dot := algDot (algReflect toLight faceLeft) toEye in
        let contribution := colorScale (pow dot 1%float) black in
        let color :=
          if (0 <? dot)%float
          then colorAddition lit
                 (if negb (shadowFactor =? 0)%float
                  then colorScale (1 - shadowFactor)%float contribution
                  else contribution)
          else lit in
        ret (color, snd cr))
     [0; 1]
     (shadeSeed Scenes.litWall wallRight hitPoint, xAxis) ;;
   ret (fst cr)) world0.
Proof.
  etransitivity.
  - exact (shade_adds_specular (rayTrace (E := collaborators) 6) Scenes.litWall origin xAxis
             wallRight hitPoint faceLeft 1 world0).
  - reflexivity.
Defined.

(** The two mirrors form a hall of mirrors for the rays along the axis. *)
Lemma twoMirrors_hall : mirrorHall twoMirrors alongAxis.
Proof.
  intros eye ray [[-> ->] | [[-> ->] | [-> ->]]].
  - exists 1%float, wallRight. repeat split; try reflexivity.
    right. left. split; reflexivity.
  - exists 2%float, wallLeft. repeat split; try reflexivity.
    right. right. split; reflexivity.
  - exists 2%float, wallRight. repeat split; try reflexivity.
    right. left. split; reflexivity.
Qed.

(** C8, on the two mirrors with their one light, from the zero fallback:
    four calls in all, at depths 0, 2, 4 and 6, and a finite colour. *)
Lemma rayTrace_mirror_call_count_witness :
  mirrorHall twoMirrors alongAxis /\
  alongAxis origin xAxis /\
  (fuelFor 0 <= 7)%nat /\
  exists c w',
    rayTrace 7 twoMirrors origin xAxis 0 world0 = Done c w' /\
    rayTraceCalls (events w') = 4%nat /\
    rayTraceDepths (events w') = [0; 2; 4; 6] /\
    (c, lastColor w') = mirrorTrace twoMirrors [0] 3 origin xAxis black /\
    Scenes.finiteRGB c = true.
Proof.
  assert (H1 : alongAxis origin xAxis) by (left; split; reflexivity).
  assert (H2 : (fuelFor 0 <= 7)%nat) by (vm_compute; lia).
  split; [exact twoMirrors_hall|]. split; [exact H1|]. split; [exact H2|].
  destruct (rayTrace_mirror_call_count 7 twoMirrors alongAxis origin xAxis world0
              twoMirrors_hall H1 H2)
    as (c & w' & Hrun & _ & Hcalls & _ & _ & Hdep & Hcol).
  exists c, w'. split; [exact Hrun|].
  split; [exact (Hcalls eq_refl)|]. split; [exact (Hdep eq_refl)|].
  split; [exact Hcol|].
  vm_compute in Hcol. injection Hcol as -> _. reflexivity.
Defined.

(** The run itself: the calls are at depths 0, 2, 4 and 6, and the colour
    returned is finite. *)
Example rayTrace_twoMirrors_run :
  exists c w',
    rayTrace 7 twoMirrors origin xAxis 0 world0 = Done c w' /\
    rayTraceDepths (events w') = [0; 2; 4; 6] /\
    (is_finite (red c) && is_finite (green c) && is_finite (blue c))%bool = true.
Proof. eexists _, _. split; [|split]; vm_compute; reflexivity. Qed.

(** C8 as stated fails on the two mirrors, in both respects: the
    recursive calls are three, not [MAX_DEPTH]; and entered with a
    [lastColor] that is not finite, the run returns a colour that is not
    finite, the call at depth 6 handing that [lastColor] back. *)
Lemma twoMirrors_count_and_finiteness_fail :
  ~ mirrorCallsAreMaxDepth twoMirrors origin xAxis world0 /\
  exists c w',
    rayTrace (fuelFor 0) twoMirrors origin xAxis 0 (mkWorld Scenes.glare []) = Done c w' /\
    Scenes.finiteRGB c = false.
Proof.
  split.
  - intros (c & w' & Hrun & Hcount).
    vm_compute in Hrun. injection Hrun as <- <-.
    vm_compute in Hcount. discriminate Hcount.
  - eexists _, _. split; vm_compute; reflexivity.
Qed.

(** C9, on the chalk wall. *)
Lemma rayTrace_fallback_written_on_hit_witness :
  0 < MAX_DEPTH /\
  (fuelFor 0 <= 7)%nat /\
  exists c w',
    rayTrace 7 oneWall origin xAxis 0 world0 = Done c w' /\
    fallbackSpec oneWall origin xAxis world0 c w'.
Proof.
  assert (H1 : 0 < MAX_DEPTH) by reflexivity.
  assert (H2 : (fuelFor 0 <= 7)%nat) by (vm_compute; lia).
  split; [exact H1|]. split; [exact H2|].
  exact (rayTrace_fallback_written_on_hit 7 oneWall origin xAxis 0 world0 H1 H2).
Defined.

(** C9 as stated fails when nothing is hit: the background colour is
    returned and [lastColor] keeps its former value. *)
Lemma rayTrace_background_not_cached :
  ~ fallbackAlwaysWritten emptyScene origin xAxis 0 world0.
Proof.
  intros H.
  assert (Hd : 0 < MAX_DEPTH) by reflexivity.
  specialize (H Hd sky (mkWorld black [EvNearest; EvRayTrace 0]) eq_refl).
  simpl in H.
  apply (f_equal (fun c => (red c =? 0)%float)) in H.
  vm_compute in H. discriminate H.
Qed.

(** C10: white lights or black lights, the same picture. *)
Example rayTrace_dark_lights :
  rayTrace (E := withLightColor collaborators (fun _ => black)) 7
           oneWall origin xAxis 0 world0
  = rayTrace 7 oneWall origin xAxis 0 world0.
Proof. vm_compute. reflexivity. Qed.

End Concrete.

(** * Further properties of the four functions *)

Section Coverage.

Context {Vector Color Scene Object Material Light : Type}.
Context {E : Collaborators Vector Color Scene Object Material Light}.

Lemma indices_empty (n : Z) : n <= 0 -> indices n = [].
Proof.
  intros H. unfold indices. replace (Z.to_nat n) with O by lia. reflexivity.
Qed.

Lemma objectSafe_ret {A : Type} (a : A) : objectSafe (ret (Color := Color) a).
Proof. intros w. discriminate. Qed.

Lemma objectSafe_bind {A B : Type} (m : M Color A) (k : A -> M Color B) :
  objectSafe m -> (forall a, objectSafe (k a)) -> objectSafe (bind m k).
Proof.
  intros Hm Hk w. unfold bind. specialize (Hm w).
  destruct (m w) as [a w1| |]; [apply Hk | discriminate | congruence].
Qed.

Lemma objectSafe_foldM {A B : Type} (f : A -> B -> M Color A) (l : list B) :
  (forall a b, objectSafe (f a b)) -> forall a, objectSafe (foldM f l a).
Proof.
  intros Hf. induction l as [|b l IH]; intros a; simpl.
  - apply objectSafe_ret.
  - apply objectSafe_bind; [apply Hf | exact IH].
Qed.

Lemma objectSafe_shade (rec : Tracer) (scene : Scene) (eye ray : Vector)
  (object : Object) (point normal : Vector) (depth : Z) :
  (forall s e r d, objectSafe (rec s e r d)) ->
  objectSafe (shade rec scene eye ray object point normal depth).
Proof.
  intros Hrec. unfold shade.
  apply objectSafe_bind; [intros w; discriminate | intros _].
  apply objectSafe_bind; [| intros; apply objectSafe_ret].
  apply objectSafe_foldM. intros [c r] k. unfold shade_light.
  apply objectSafe_bind.
  - unfold shade_transparency. destruct (_ <? _)%float; [|apply objectSafe_ret].
    apply objectSafe_bind; [apply Hrec | intros; apply objectSafe_ret].
  - intros v. apply objectSafe_bind; [| intros; apply objectSafe_ret].
    unfold shade_mirror. destruct (_ <? _)%float; [|apply objectSafe_ret].
    apply objectSafe_bind; [apply Hrec | intros; apply objectSafe_ret].
Qed.

(** X1: [rayTrace] never reads its local [Object* object] before
    [getNearestObject] has stored into it, whatever the scene, the ray, the
    depth and the nesting allowed: the pointer is read only after a
    distance other than [DBL_MAX] came back, and such a distance comes
    with a stored object. *)
Theorem rayTrace_object_initialised (fuel : nat) (scene : Scene)
  (eye ray : Vector) (depth : Z) (w : World Color) :
  rayTrace fuel scene eye ray depth w <> UninitialisedObject.
Proof.
  revert scene eye ray depth w.
  induction fuel as [|fuel IH]; intros scene eye ray depth; [intros w; discriminate|].
  change (objectSafe (rayTrace (S fuel) scene eye ray depth)). simpl.
  apply objectSafe_bind; [intros w; discriminate | intros _].
  destruct (depth <? MAX_DEPTH); [|intros w; discriminate].
  apply objectSafe_bind; [intros w; discriminate | intros _].
  destruct (getNearestObject scene eye ray None) as [distance o] eqn:Hnear.
  destruct (distance =? DBL_MAX)%float eqn:Hhit; [apply objectSafe_ret|].
  destruct (getNearestObject_stored _ _ _ _ _ Hnear Hhit) as [object ->].
  apply objectSafe_bind.
  - apply objectSafe_shade. intros s e r d. exact (IH s e r d).
  - intros c. apply objectSafe_bind; [intros w; discriminate | intros _ w; discriminate].
Qed.

(** X2: in a scene whose object count is zero or negative neither loop
    runs: [getNearestObject] answers [DBL_MAX] and leaves [*object] alone,
    [isInShadow] answers 0, and [rayTrace] below the depth limit returns
    the background colour after a single call. *)
Theorem no_objects_no_hit (scene : Scene) (eye ray light : Vector)
  (object : option Object) (fuel : nat) (depth : Z) (w : World Color) :
  sceneGetObjectCount scene <= 0 ->
  getNearestObject scene eye ray object = (DBL_MAX, object) /\
  isInShadow scene eye ray light = 0%float /\
  (depth < MAX_DEPTH ->
   rayTrace (S fuel) scene eye ray depth w =
   Done (sceneGetBackgroundColor scene eye ray)
        (mkWorld (lastColor w) (EvNearest :: EvRayTrace depth :: events w))).
Proof.
  intros Hn.
  assert (Hnear : forall o, getNearestObject scene eye ray o = (DBL_MAX, o))
    by (intros o; unfold getNearestObject; rewrite indices_empty by exact Hn; reflexivity).
  split; [apply Hnear|]. split.
  - unfold isInShadow. rewrite indices_empty by exact Hn. reflexivity.
  - intros Hd. rewrite rayTrace_below by exact Hd. cbv zeta.
    rewrite Hnear, DBL_MAX_eqb. reflexivity.
Qed.

(** X3: in a scene whose light count is zero or negative a hit is coloured
    by the ambient term alone, [colorMultiplication diffuse ambient], and
    nothing is traced further, even on a mirror or a transparent
    material: reflection and refraction sit inside the loop over the
    lights.  One unit of fuel is enough. *)
Theorem rayTrace_without_lights (fuel : nat) (scene : Scene) (eye ray : Vector)
  (depth : Z) (w : World Color) (distance : double) (object : Object) :
  sceneGetLightCount scene <= 0 ->
  depth < MAX_DEPTH ->
  getNearestObject scene eye ray None = (distance, Some object) ->
  (distance =? DBL_MAX)%float = false ->
  let point := algAdd eye (algScale distance ray) in
  let material := sceneGetMaterial scene (objGetMaterial object) in
  let c := colorMultiplication
             (materialGetDiffuse material (objTextureCoordinateAt object point))
             (sceneGetAmbientLight scene) in
  rayTrace (S fuel) scene eye ray depth w =
  Done c (mkWorld c (EvShade (depth + 1) :: EvNearest :: EvRayTrace depth :: events w)).
Proof.
  intros HL Hd Hnear Hhit. cbv zeta.
  rewrite rayTrace_below by exact Hd. cbv zeta. rewrite Hnear, Hhit.
  unfold shade. rewrite indices_empty by exact HL. reflexivity.
Qed.

(** X4: a light that is not farther from the point than the shadow epsilon
    0.1 (or whose distance is not a number) is never shadowed: no object
    can lie strictly between 0.1 and that distance, so [isInShadow]
    answers 0 whatever the scene holds. *)
Theorem isInShadow_light_within_epsilon (scene : Scene)
  (point rayToLight lightLocation : Vector) :
  (0.1 <? algNorm (algSub lightLocation point))%float = false ->
  isInShadow scene point rayToLight lightLocation = 0%float.
Proof.
  intros Hnear. rewrite isInShadow_filter, filter_none; [reflexivity|].
  intros i _. unfold blocksLight. cbv zeta.
  destruct (0.1 <? distanceAt scene point rayToLight i)%float eqn:H1; [|reflexivity].
  destruct (distanceAt scene point rayToLight i <? algNorm (algSub lightLocation point))%float
    eqn:H2; [|reflexivity].
  rewrite (DoubleOrder.ltb_trans _ _ _ H1 H2) in Hnear. discriminate.
Qed.

(** X5: a distance other than [DBL_MAX] that [getNearestObject] returns is
    the distance of the object it stored, that object is one of the scene,
    and the distance is strictly between 1e-5 and [DBL_MAX]: never a NaN,
    never at or behind the origin of the ray. *)
Theorem getNearestObject_hit_is_accepted (scene : Scene) (eye ray : Vector)
  (object0 : option Object) (distance : double) (object : option Object) :
  getNearestObject scene eye ray object0 = (distance, object) ->
  (distance =? DBL_MAX)%float = false ->
  (0.00001 <? distance)%float = true /\
  (distance <? DBL_MAX)%float = true /\
  exists i, 0 <= i < sceneGetObjectCount scene /\
    object = Some (sceneGetObject scene i) /\
    distance = distanceAt scene eye ray i.
Proof.
  rewrite getNearestObject_scanned. intros Heq Hhit.
  destruct (scanned_invariant scene eye ray object0
              (Z.to_nat (sceneGetObjectCount scene)))
    as [[_ H] | (i & Hi & Hacc & H & _)]; rewrite H in Heq; injection Heq as <- <-.
  - rewrite DBL_MAX_eqb in Hhit. discriminate.
  - apply andb_prop in Hacc as [Heps Hmax]. split; [exact Heps|]. split; [exact Hmax|].
    exists i. split; [lia|]. split; reflexivity.
Qed.

(** One light iteration on a material that neither transmits nor
    reflects: no call, [ray] untouched, [color] gains [localLight]. *)
Lemma shade_light_local (rec : Tracer) (scene : Scene) (eye : Vector)
  (object : Object) (point normal : Vector) (depth : Z)
  (cr : Color * Vector) (k : Z) (w : World Color) :
  let material := sceneGetMaterial scene (objGetMaterial object) in
  (materialGetOpacity material <? 1)%float = false ->
  (0 <? materialGetReflectionFactor material)%float = false ->
  shade_light rec scene eye object point normal depth
    (materialGetDiffuse material (objTextureCoordinateAt object point))
    (materialGetSpecular material) (materialGetSpecularExponent material)
    (materialGetReflectionFactor material) (materialGetRefractionIndex material)
    (materialGetOpacity material) cr k w
  = Done (localLight scene eye object point normal (fst cr) k, snd cr) w.
Proof.
  cbv zeta. intros Hop Hre.
  unfold shade_light, shade_transparency, shade_mirror. rewrite Hop, Hre.
  cbv zeta. unfold bind, ret. f_equal.
  unfold localLight, shade_specular, shade_diffuse, shadowed. cbv zeta.
  destruct (0 <? materialGetOpacity _)%float;
    destruct (0 <? algDot normal _)%float;
    destruct (0 <? algDot (algReflect _ normal) _)%float; reflexivity.
Qed.

(** X6: a hit on a material whose opacity is not below 1 and whose
    reflection factor is not positive is coloured by the local model alone
    -- the ambient term, then for each light in index order its diffuse
    and specular terms attenuated by its shadow factor.  [rayTrace] makes
    no further call for it (one unit of fuel is enough at any depth below
    the limit), and the colour does not depend on the [lastColor] it
    started with. *)
Theorem rayTrace_opaque_matt (fuel : nat) (scene : Scene) (eye ray : Vector)
  (depth : Z) (w : World Color) (distance : double) (object : Object) :
  depth < MAX_DEPTH ->
  getNearestObject scene eye ray None = (distance, Some object) ->
  (distance =? DBL_MAX)%float = false ->
  (materialGetOpacity (sceneGetMaterial scene (objGetMaterial object)) <? 1)%float = false ->
  (0 <? materialGetReflectionFactor (sceneGetMaterial scene (objGetMaterial object)))%float
    = false ->
  let point := algAdd eye (algScale distance ray) in
  let normal := algUnit (objNormalAt object point) in
  let c := localColor scene eye object point normal in
  rayTrace (S fuel) scene eye ray depth w =
  Done c (mkWorld c (EvShade (depth + 1) :: EvNearest :: EvRayTrace depth :: events w)).
Proof.
  intros Hd Hnear Hhit Hop Hre. cbv zeta.
  rewrite rayTrace_below by exact Hd. cbv zeta. rewrite Hnear, Hhit.
  unfold shade, localColor. cbv zeta. unfold bind at 1, tick at 1. unfold bind at 1.
  set (point := algAdd eye (algScale distance ray)).
  set (normal := algUnit (objNormalAt object point)).
  match goal with
  | |- context [foldM ?F ?l ?cr0 ?w1] =>
      assert (Hfold : forall l0 c0 w0,
                 foldM F l0 (c0, ray) w0
                 = Done (fold_left (localLight scene eye object point normal) l0 c0, ray) w0)
  end.
  { induction l0 as [|k l0 IH]; intros c0 w0; simpl; [reflexivity|].
    unfold bind. rewrite (shade_light_local _ scene eye object point normal (depth + 1)
                            (c0, ray) k w0 Hop Hre).
    simpl fst. simpl snd. apply IH. }
  rewrite Hfold. reflexivity.
Qed.

Lemma steps_weaken {A : Type} (P Q : Event -> Prop) (m : M Color A) :
  (forall e, P e -> Q e) ->
  steps (extendsBy P) m -> steps (extendsBy Q) m.
Proof.
  intros HPQ Hm w. destruct (Hm w) as (a & w' & Hrun & new & Hnew & Hall).
  exists a, w'. split; [exact Hrun|]. exists new. split; [exact Hnew|].
  eapply Forall_impl; [exact HPQ | exact Hall].
Qed.

Lemma depthInRange_deeper (d0 d1 : Z) (e : Event) :
  d0 <= d1 <= MAX_DEPTH + 1 -> depthInRange d1 e -> depthInRange d0 e.
Proof. unfold MAX_DEPTH. destruct e; simpl; lia. Qed.

Lemma steps_rayTrace_range (fuel : nat) :
  forall (scene : Scene) (eye ray : Vector) (depth : Z),
  (fuelFor depth <= fuel)%nat ->
  steps (extendsBy (depthInRange depth)) (rayTrace fuel scene eye ray depth).
Proof.
  induction fuel as [|fuel IH]; intros scene eye ray depth Hfuel.
  - unfold fuelFor in Hfuel. lia.
  - simpl. apply steps_bind; [apply steps_tick; simpl; lia | intros _].
    destruct (depth <? MAX_DEPTH) eqn:Hd.
    + apply Z.ltb_lt in Hd. rewrite (fuelFor_below depth Hd) in Hfuel.
      pose proof (fuelFor_mono (depth + 1) (depth + 1 + 1)) as Hmono.
      apply steps_bind; [apply steps_tick; exact I | intros _].
      destruct (getNearestObject scene eye ray None) as [distance o] eqn:Hnear.
      destruct (distance =? DBL_MAX)%float eqn:Hhit; [apply steps_ret|].
      destruct (getNearestObject_stored _ _ _ _ _ Hnear Hhit) as [object ->].
      apply steps_bind.
      * apply steps_shade; [simpl; lia | |]; intros s e r.
        -- apply (steps_weaken (depthInRange (depth + 1))).
           ++ intros ev. apply depthInRange_deeper. unfold MAX_DEPTH in *. lia.
           ++ apply IH. lia.
        -- apply (steps_weaken (depthInRange (depth + 1 + 1))).
           ++ intros ev. apply depthInRange_deeper. unfold MAX_DEPTH in *. lia.
           ++ apply IH. lia.
      * intros c. apply steps_bind; [|intros _].
        -- intros w. eexists _, _. split; [reflexivity | apply extendsBy_lastColor].
        -- intros w. eexists _, _. split; [reflexivity | apply extendsBy_refl].
    + intros w. eexists _, _. split; [reflexivity | apply extendsBy_refl].
Qed.

(** X7: along every call chain the depth counter stays in range.  For a
    call made at [depth], every nested [rayTrace] call receives a depth
    between [depth] and [MAX_DEPTH + 1] and every [shade] a depth above
    [depth] and at most [MAX_DEPTH]; so neither [depth++] nor [depth + 1]
    can overflow, and the counter never runs past the limit by more than
    one. *)
Theorem rayTrace_depth_range (fuel : nat) (scene : Scene) (eye ray : Vector)
  (depth : Z) (w : World Color) :
  (fuelFor depth <= fuel)%nat ->
  exists c w',
    rayTrace fuel scene eye ray depth w = Done c w' /\
    exists new, events w' = new ++ events w /\
      Forall (depthInRange depth) new.
Proof.
  intros Hfuel.
  destruct (steps_rayTrace_range fuel scene eye ray depth Hfuel w)
    as (c & w' & Hrun & Hext).
  exists c, w'. split; [exact Hrun | exact Hext].
Qed.

(** Calls added by one light iteration, given bounds for the two depths. *)
Lemma shade_light_bound (rec : Tracer) (scene : Scene) (eye : Vector)
  (object : Object) (point normal : Vector) (depth : Z) (diffuse specular : Color)
  (specularExponent reflectionFactor refractedIndex opacity : double)
  (n1 n2 : nat) (cr : Color * Vector) (k : Z) (w : World Color) :
  (forall e r w0, exists c w1,
     rec scene e r depth w0 = Done c w1 /\
     (rayTraceCalls (events w1) <= rayTraceCalls (events w0) + n1)%nat) ->
  (forall e r w0, exists c w1,
     rec scene e r (depth + 1) w0 = Done c w1 /\
     (rayTraceCalls (events w1) <= rayTraceCalls (events w0) + n2)%nat) ->
  exists cr' w',
    shade_light rec scene eye object point normal depth diffuse specular
      specularExponent reflectionFactor refractedIndex opacity cr k w = Done cr' w' /\
    (rayTraceCalls (events w') <= rayTraceCalls (events w) + (n1 + n2))%nat.
Proof.
  intros Hsame Hnext. unfold shade_light, shade_transparency, shade_mirror.
  cbv zeta. unfold bind, ret.
  destruct (opacity <? 1)%float.
  - match goal with
    | |- context [rec scene ?e ?r depth w] =>
        destruct (Hsame e r w) as (c1 & w1 & -> & H1)
    end.
    destruct (0 <? reflectionFactor)%float.
    + match goal with
      | |- context [rec scene ?e ?r (depth + 1) w1] =>
          destruct (Hnext e r w1) as (c2 & w2 & -> & H2)
      end.
      eexists _, _. split; [reflexivity | lia].
    + eexists _, _. split; [reflexivity | lia].
  - destruct (0 <? reflectionFactor)%float.
    + match goal with
      | |- context [rec scene ?e ?r (depth + 1) w] =>
          destruct (Hnext e r w) as (c2 & w2 & -> & H2)
      end.
      eexists _, _. split; [reflexivity | lia].
    + eexists _, _. split; [reflexivity | lia].
Qed.

Lemma foldM_shade_light_bound (rec : Tracer) (scene : Scene) (eye : Vector)
  (object : Object) (point normal : Vector) (depth : Z) (diffuse specular : Color)
  (specularExponent reflectionFactor refractedIndex opacity : double)
  (n1 n2 : nat) (l : list Z) :
  (forall e r w0, exists c w1,
     rec scene e r depth w0 = Done c w1 /\
     (rayTraceCalls (events w1) <= rayTraceCalls (events w0) + n1)%nat) ->
  (forall e r w0, exists c w1,
     rec scene e r (depth + 1) w0 = Done c w1 /\
     (rayTraceCalls (events w1) <= rayTraceCalls (events w0) + n2)%nat) ->
  forall (cr : Color * Vector) (w : World Color),
  exists cr' w',
    foldM (shade_light rec scene eye object point normal depth diffuse specular
             specularExponent reflectionFactor refractedIndex opacity) l cr w
      = Done cr' w' /\
    (rayTraceCalls (events w') <= rayTraceCalls (events w) + length l * (n1 + n2))%nat.
Proof.
  intros Hsame Hnext. induction l as [|k l IH]; intros cr w; simpl.
  - eexists _, _. split; [reflexivity | lia].
  - unfold bind at 1.
    destruct (shade_light_bound rec scene eye object point normal depth diffuse specular
                specularExponent reflectionFactor refractedIndex opacity n1 n2 cr k w
                Hsame Hnext) as (cr1 & w1 & -> & H1).
    destruct (IH cr1 w1) as (cr2 & w2 & -> & H2).
    eexists _, _. split; [reflexivity | lia].
Qed.

Lemma levelsLeft_limit (depth : Z) : MAX_DEPTH <= depth -> levelsLeft depth = O.
Proof. unfold levelsLeft. lia. Qed.

Lemma levelsLeft_below (depth : Z) :
  depth < MAX_DEPTH -> levelsLeft depth = S (levelsLeft (depth + 1)).
Proof. unfold levelsLeft. lia. Qed.

Lemma rayTrace_calls_bounded (fuel : nat) :
  forall (scene : Scene) (eye ray : Vector) (depth : Z) (w : World Color),
  (fuelFor depth <= fuel)%nat ->
  exists c w',
    rayTrace fuel scene eye ray depth w = Done c w' /\
    (rayTraceCalls (events w') <=
       rayTraceCalls (events w)
       + callBound (Z.to_nat (sceneGetLightCount scene)) (levelsLeft depth))%nat.
Proof.
  induction fuel as [|fuel IH]; intros scene eye ray depth w Hfuel;
    [unfold fuelFor in Hfuel; lia|].
  destruct (Z.lt_ge_cases depth MAX_DEPTH) as [Hd|Hd].
  - rewrite rayTrace_below by exact Hd. cbv zeta.
    rewrite (fuelFor_below depth Hd) in Hfuel.
    pose proof (fuelFor_mono (depth + 1) (depth + 1 + 1)) as Hmono.
    rewrite (levelsLeft_below depth Hd).
    set (L := Z.to_nat (sceneGetLightCount scene)).
    set (m := levelsLeft (depth + 1)).
    assert (Hm2 : levelsLeft (depth + 1 + 1) = match m with O => O | S k => k end)
      by (unfold m, levelsLeft;
          destruct (Z.to_nat (MAX_DEPTH - (depth + 1))) eqn:Hm; lia).
    assert (Hb2 : callBound L (levelsLeft (depth + 1 + 1))
                  = match m with O => 1%nat | S k => callBound L k end)
      by (rewrite Hm2; destruct m; reflexivity).
    destruct (getNearestObject scene eye ray None) as [distance o] eqn:Hnear.
    destruct (distance =? DBL_MAX)%float eqn:Hhit.
    { eexists _, _. split; [reflexivity|]. simpl. lia. }
    destruct (getNearestObject_stored _ _ _ _ _ Hnear Hhit) as [object ->].
    unfold shade. cbv zeta. unfold bind at 1, tick at 1. unfold bind at 1.
    assert (Hsame : forall e r w0, exists c w1,
               rayTrace fuel scene e r (depth + 1) w0 = Done c w1 /\
               (rayTraceCalls (events w1) <= rayTraceCalls (events w0) + callBound L m)%nat)
      by (intros e r w0; apply IH; lia).
    assert (Hnext : forall e r w0, exists c w1,
               rayTrace fuel scene e r (depth + 1 + 1) w0 = Done c w1 /\
               (rayTraceCalls (events w1) <=
                  rayTraceCalls (events w0) + callBound L (levelsLeft (depth + 1 + 1)))%nat)
      by (intros e r w0; apply IH; lia).
    match goal with
    | |- context [foldM (shade_light _ _ _ _ ?pt ?nm _ ?df ?sp ?se ?rf ?ri ?op) ?l ?cr0 ?w1] =>
        destruct (foldM_shade_light_bound (rayTrace fuel) scene eye object pt nm
                    (depth + 1) df sp se rf ri op
                    (callBound L m) (callBound L (levelsLeft (depth + 1 + 1))) l
                    Hsame Hnext cr0 w1) as (cr' & w' & Hrun & Hcalls)
    end.
    clear Hsame Hnext.
    rewrite Hrun. unfold ret. eexists _, _. split; [reflexivity|].
    simpl events. simpl events in Hcalls. simpl rayTraceCalls in Hcalls.
    rewrite length_indices in Hcalls. fold L in Hcalls. rewrite Hb2 in Hcalls.
    simpl callBound. lia.
  - simpl. unfold bind, tick, getLastColor.
    apply Z.ltb_ge in Hd. rewrite Hd. eexists _, _. split; [reflexivity|].
    apply Z.ltb_ge in Hd. rewrite (levelsLeft_limit depth Hd). simpl. lia.
Qed.

(** X8: the work of one call is bounded whatever the scene.  With [L]
    lights, a call at [depth] makes at most [callBound L (6 - depth)] calls
    of [rayTrace] in all, where a working call accounts for itself and,
    per light, for one call a level down and one two levels down; from
    depth 0 with one light that is at most 41 calls. *)
Theorem rayTrace_call_bound (fuel : nat) (scene : Scene) (eye ray : Vector)
  (depth : Z) (w : World Color) :
  (fuelFor depth <= fuel)%nat ->
  exists c w',
    rayTrace fuel scene eye ray depth w = Done c w' /\
    (rayTraceCalls (events w') <=
       rayTraceCalls (events w)
       + callBound (Z.to_nat (sceneGetLightCount scene)) (levelsLeft depth))%nat /\
    (sceneGetLightCount scene = 1 -> depth = 0 ->
     (rayTraceCalls (events w') <= rayTraceCalls (events w) + 41)%nat).
Proof.
  intros Hfuel.
  destruct (rayTrace_calls_bounded fuel scene eye ray depth w Hfuel)
    as (c & w' & Hrun & Hcalls).
  exists c, w'. split; [exact Hrun|]. split; [exact Hcalls|].
  intros HL Hd. rewrite HL, Hd in Hcalls. exact Hcalls.
Qed.

(** X9: a call at or above the depth limit returns the colour of the last
    shading that completed, whichever ray that was for: right after a call
    below the limit that hit an object and returned [c], any call at the
    limit -- for any scene, origin and direction -- returns [c] again. *)
Theorem rayTrace_limit_returns_last_shaded (fuel : nat) (scene : Scene)
  (eye ray : Vector) (depth : Z) (w : World Color) :
  depth < MAX_DEPTH ->
  (fuelFor depth <= fuel)%nat ->
  (fst (getNearestObject scene eye ray None) =? DBL_MAX)%float = false ->
  exists c w1,
    rayTrace fuel scene eye ray depth w = Done c w1 /\
    forall (fuel2 : nat) (scene2 : Scene) (eye2 ray2 : Vector) (depth2 : Z),
      MAX_DEPTH <= depth2 ->
      rayTrace (S fuel2) scene2 eye2 ray2 depth2 w1 =
      Done c (mkWorld c (EvRayTrace depth2 :: events w1)).
Proof.
  intros Hd Hfuel Hhit. rewrite (fuelFor_below depth Hd) in Hfuel.
  destruct fuel as [|fuel]; [lia|].
  rewrite rayTrace_below by exact Hd. cbv zeta.
  destruct (getNearestObject scene eye ray None) as [distance o] eqn:Hnear.
  simpl fst in Hhit. rewrite Hhit.
  destruct (getNearestObject_stored _ _ _ _ _ Hnear Hhit) as [object ->].
  set (w0 := mkWorld _ _).
  destruct (steps_shade boundedEvent (rayTrace fuel) scene eye ray object
              (algAdd eye (algScale distance ray))
              (algUnit (objNormalAt object (algAdd eye (algScale distance ray))))
              (depth + 1)) with (w := w0) as (c & w2 & Hshade & _).
  - simpl. lia.
  - intros s e r. apply steps_rayTrace. lia.
  - intros s e r. apply steps_rayTrace.
    pose proof (fuelFor_mono (depth + 1) (depth + 1 + 1)). lia.
  - rewrite Hshade. eexists _, _. split; [reflexivity|].
    intros fuel2 scene2 eye2 ray2 depth2 Hd2. simpl.
    unfold bind, tick, getLastColor. apply Z.ltb_ge in Hd2. rewrite Hd2. reflexivity.
Qed.

End Coverage.

Section GlassChain.

Context {Vector Color Scene Object Material Light : Type}.
Context {E : Collaborators Vector Color Scene Object Material Light}.

Variable scene : Scene.
Variable between : Vector -> Vector -> Prop.
Variable current : Object -> Vector -> Vector -> Prop.
Hypothesis hall : glassHall scene between current.

(** One light iteration on a transparent object: one call, at the depth of
    [shade], for the ray refracted from the current [ray]. *)
Lemma shade_light_glass (rec : Tracer) (eye : Vector) (object : Object)
  (point normal : Vector) (depth : Z) (diffuse specular : Color)
  (specularExponent : double) (n : nat) (cr : Color * Vector) (k : Z)
  (w : World Color) :
  let material := sceneGetMaterial scene (objGetMaterial object) in
  (materialGetOpacity material <? 1)%float = true ->
  (0 <? materialGetReflectionFactor material)%float = false ->
  current object point (snd cr) ->
  (forall e r w0, between e r -> exists c w1,
     rec scene e r depth w0 = Done c w1 /\
     rayTraceCalls (events w1) = (rayTraceCalls (events w0) + n)%nat) ->
  exists cr' w',
    shade_light rec scene eye object point normal depth diffuse specular
      specularExponent (materialGetReflectionFactor material)
      (materialGetRefractionIndex material) (materialGetOpacity material) cr k w
      = Done cr' w' /\
    current object point (snd cr') /\
    rayTraceCalls (events w') = (rayTraceCalls (events w) + n)%nat.
Proof.
  cbv zeta. intros Hop Hre Hcur Hrec.
  destruct (proj2 hall object point (snd cr) Hcur) as [Hbetween Hcur'].
  unfold refractedRay in Hbetween, Hcur'. cbv zeta in Hbetween, Hcur'.
  simpl fst in Hbetween. simpl snd in Hbetween, Hcur'.
  unfold shade_light, shade_transparency, shade_mirror. rewrite Hop, Hre.
  cbv zeta. unfold bind, ret. simpl v_ray.
  match type of Hbetween with
  | between ?e ?r => destruct (Hrec e r w Hbetween) as (c & w1 & Hrun & Hcalls)
  end.
  rewrite Hrun.
  eexists _, _. split; [reflexivity|]. split; [|exact Hcalls].
  unfold shade_specular, shade_diffuse. cbv zeta.
  repeat match goal with
         | |- context [if ?b then _ else _] => destruct b
         end; exact Hcur'.
Qed.

Lemma foldM_shade_light_glass (rec : Tracer) (eye : Vector) (object : Object)
  (point normal : Vector) (depth : Z) (diffuse specular : Color)
  (specularExponent : double) (n : nat) (l : list Z) :
  let material := sceneGetMaterial scene (objGetMaterial object) in
  (materialGetOpacity material <? 1)%float = true ->
  (0 <? materialGetReflectionFactor material)%float = false ->
  (forall e r w0, between e r -> exists c w1,
     rec scene e r depth w0 = Done c w1 /\
     rayTraceCalls (events w1) = (rayTraceCalls (events w0) + n)%nat) ->
  forall (cr : Color * Vector) (w : World Color),
  current object point (snd cr) ->
  exists cr' w',
    foldM (shade_light rec scene eye object point normal depth diffuse specular
             specularExponent (materialGetReflectionFactor material)
             (materialGetRefractionIndex material) (materialGetOpacity material)) l cr w
      = Done cr' w' /\
    rayTraceCalls (events w') = (rayTraceCalls (events w) + length l * n)%nat.
Proof.
  cbv zeta. intros Hop Hre Hrec.
  induction l as [|k l IH]; intros cr w Hcur; simpl.
  - eexists _, _. split; [reflexivity | lia].
  - unfold bind at 1.
    destruct (shade_light_glass rec eye object point normal depth diffuse specular
                specularExponent n cr k w Hop Hre Hcur Hrec)
      as (cr1 & w1 & -> & Hcur1 & H1).
    destruct (IH cr1 w1 Hcur1) as (cr2 & w2 & -> & H2).
    eexists _, _. split; [reflexivity | lia].
Qed.

Lemma rayTrace_glass_calls (fuel : nat) :
  forall (eye ray : Vector) (depth : Z) (w : World Color),
  between eye ray ->
  (fuelFor depth <= fuel)%nat ->
  exists c w',
    rayTrace fuel scene eye ray depth w = Done c w' /\
    rayTraceCalls (events w') =
      (rayTraceCalls (events w)
       + mirrorCalls (Z.to_nat (sceneGetLightCount scene)) (levelsLeft depth))%nat.
Proof.
  induction fuel as [|fuel IH]; intros eye ray depth w Hin Hfuel;
    [unfold fuelFor in Hfuel; lia|].
  destruct (Z.lt_ge_cases depth MAX_DEPTH) as [Hd|Hd].
  - rewrite rayTrace_below by exact Hd. cbv zeta.
    rewrite (fuelFor_below depth Hd) in Hfuel.
    destruct (proj1 hall eye ray Hin) as (distance & object & -> & -> & Hop & Hre & Hcur).
    set (n := mirrorCalls (Z.to_nat (sceneGetLightCount scene))
                (levelsLeft (depth + 1))).
    assert (Hrec : forall e r w0, between e r -> exists c w1,
               rayTrace fuel scene e r (depth + 1) w0 = Done c w1 /\
               rayTraceCalls (events w1) = (rayTraceCalls (events w0) + n)%nat)
      by (intros e r w0 He; apply IH; [exact He | lia]).
    unfold shade. cbv zeta. unfold bind at 1, tick at 1. unfold bind at 1.
    match goal with
    | |- context [foldM (shade_light _ _ _ _ ?pt ?nm _ ?df ?sp ?se _ _ _) ?l ?cr0 ?w1] =>
        destruct (foldM_shade_light_glass (rayTrace fuel) eye object pt nm
                    (depth + 1) df sp se n l Hop Hre Hrec cr0 w1 Hcur)
          as (cr' & w' & Hrun & Hcalls)
    end.
    clear Hrec. rewrite Hrun. unfold ret. eexists _, _. split; [reflexivity|].
    simpl events. rewrite Hcalls. simpl events. simpl rayTraceCalls.
    rewrite length_indices, (levelsLeft_below depth Hd). simpl mirrorCalls.
    fold n. lia.
  - simpl. unfold bind, tick, getLastColor.
    apply Z.ltb_ge in Hd. rewrite Hd. eexists _, _. split; [reflexivity|].
    apply Z.ltb_ge in Hd. rewrite (levelsLeft_limit depth Hd). simpl. lia.
Qed.

End GlassChain.

Section GlassClaim.

Context {Vector Color Scene Object Material Light : Type}.
Context {E : Collaborators Vector Color Scene Object Material Light}.

(** X10: transmission does not use up the depth budget the way reflection
    does.  Where every traced ray meets a transparent object that does not
    reflect, a primary ray at depth 0 runs through all [MAX_DEPTH] working
    levels: with [L] lights it makes 1 + L + L^2 + ... + L^6 calls of
    [rayTrace], seven with one light, against four for the mirrors. *)
Theorem rayTrace_glass_call_count (fuel : nat) (scene : Scene)
  (between : Vector -> Vector -> Prop)
  (current : Object -> Vector -> Vector -> Prop)
  (eye ray : Vector) (w : World Color) :
  glassHall scene between current ->
  between eye ray ->
  (fuelFor 0 <= fuel)%nat ->
  let L := Z.to_nat (sceneGetLightCount scene) in
  exists c w',
    rayTrace fuel scene eye ray 0 w = Done c w' /\
    rayTraceCalls (events w') =
      (rayTraceCalls (events w)
       + (1 + L * (1 + L * (1 + L * (1 + L * (1 + L * (1 + L)))))))%nat /\
    (L = 1%nat -> rayTraceCalls (events w') = (rayTraceCalls (events w) + 7)%nat).
Proof.
  intros Hhall Hin Hfuel L.
  destruct (rayTrace_glass_calls scene between current Hhall fuel eye ray 0 w Hin Hfuel)
    as (c & w' & Hrun & Hcalls).
  exists c, w'. split; [exact Hrun|].
  change (levelsLeft 0) with 6%nat in Hcalls. fold L in Hcalls.
  simpl mirrorCalls in Hcalls.
  split; [rewrite Hcalls; nia | intros HL; rewrite Hcalls, HL; reflexivity].
Qed.

End GlassClaim.

(** * The further properties on concrete scenes *)

Section CoverageConcrete.

Import Demo Scenes.

(** X2, on the scene without objects. *)
Lemma no_objects_no_hit_witness :
  sceneGetObjectCount emptyScene <= 0 /\
  getNearestObject emptyScene origin xAxis None = (DBL_MAX, None) /\
  isInShadow emptyScene origin xAxis farPoint = 0%float /\
  (0 < MAX_DEPTH ->
   rayTrace 1 emptyScene origin xAxis 0 world0 =
   Done (sceneGetBackgroundColor emptyScene origin xAxis)
        (mkWorld (lastColor world0) (EvNearest :: EvRayTrace 0 :: events world0))).
Proof.
  assert (H : sceneGetObjectCount emptyScene <= 0) by (vm_compute; discriminate).
  split; [exact H|].
  exact (no_objects_no_hit emptyScene origin xAxis farPoint None 0 0 world0 H).
Defined.

(** X3, on the two mirrors without a light: nothing is reflected. *)
Lemma rayTrace_without_lights_witness :
  sceneGetLightCount darkMirrors <= 0 /\
  0 < MAX_DEPTH /\
  getNearestObject darkMirrors origin xAxis None = (1%float, Some wallRight) /\
  (1 =? DBL_MAX)%float = false /\
  rayTrace 1 darkMirrors origin xAxis 0 world0 =
  Done (cmul grey grey)
       (mkWorld (cmul grey grey) [EvShade 1; EvNearest; EvRayTrace 0]).
Proof.
  assert (H1 : sceneGetLightCount darkMirrors <= 0) by (vm_compute; discriminate).
  assert (H2 : 0 < MAX_DEPTH) by reflexivity.
  assert (H3 : getNearestObject darkMirrors origin xAxis None = (1%float, Some wallRight))
    by reflexivity.
  assert (H4 : (1 =? DBL_MAX)%float = false) by reflexivity.
  split; [exact H1|]. split; [exact H2|]. split; [exact H3|]. split; [exact H4|].
  exact (rayTrace_without_lights 0 darkMirrors origin xAxis 0 world0 1%float wallRight
           H1 H2 H3 H4).
Defined.

(** X4, with a light 0.05 away on the two blockers. *)
Lemma isInShadow_light_within_epsilon_witness :
  (0.1 <? algNorm (algSub nearLight origin))%float = false /\
  isInShadow twoBlockers origin xAxis nearLight = 0%float.
Proof.
  assert (H : (0.1 <? algNorm (algSub nearLight origin))%float = false) by reflexivity.
  split; [exact H|].
  exact (isInShadow_light_within_epsilon twoBlockers origin xAxis nearLight H).
Defined.

(** X5, on the two mirrors. *)
Lemma getNearestObject_hit_is_accepted_witness :
  getNearestObject twoMirrors origin xAxis None = (1%float, Some wallRight) /\
  (1 =? DBL_MAX)%float = false /\
  (0.00001 <? 1)%float = true /\
  (1 <? DBL_MAX)%float = true /\
  exists i, 0 <= i < sceneGetObjectCount twoMirrors /\
    Some wallRight = Some (sceneGetObject twoMirrors i) /\
    1%float = distanceAt twoMirrors origin xAxis i.
Proof.
  assert (H1 : getNearestObject twoMirrors origin xAxis None = (1%float, Some wallRight))
    by reflexivity.
  assert (H2 : (1 =? DBL_MAX)%float = false) by reflexivity.
  split; [exact H1|]. split; [exact H2|].
  exact (getNearestObject_hit_is_accepted twoMirrors origin xAxis None 1%float
           (Some wallRight) H1 H2).
Defined.

(** X6, on the chalk wall lit by two lights. *)
Lemma rayTrace_opaque_matt_witness :
  0 < MAX_DEPTH /\
  getNearestObject litWall origin xAxis None = (1%float, Some wallRight) /\
  (1 =? DBL_MAX)%float = false /\
  (materialGetOpacity (sceneGetMaterial litWall (objGetMaterial wallRight)) <? 1)%float
    = false /\
  (0 <? materialGetReflectionFactor (sceneGetMaterial litWall (objGetMaterial wallRight)))%float
    = false /\
  let point := algAdd origin (algScale 1%float xAxis) in
  let normal := algUnit (objNormalAt wallRight point) in
  let c := localColor litWall origin wallRight point normal in
  rayTrace 1 litWall origin xAxis 0 world0 =
  Done c (mkWorld c (EvShade (0 + 1) :: EvNearest :: EvRayTrace 0 :: events world0)).
Proof.
  assert (H1 : 0 < MAX_DEPTH) by reflexivity.
  assert (H2 : getNearestObject litWall origin xAxis None = (1%float, Some wallRight))
    by reflexivity.
  assert (H3 : (1 =? DBL_MAX)%float = false) by reflexivity.
  assert (H4 : (materialGetOpacity (sceneGetMaterial litWall (objGetMaterial wallRight))
                <? 1)%float = false) by reflexivity.
  assert (H5 : (0 <? materialGetReflectionFactor
                       (sceneGetMaterial litWall (objGetMaterial wallRight)))%float
               = false) by reflexivity.
  split; [exact H1|]. split; [exact H2|]. split; [exact H3|]. split; [exact H4|].
  split; [exact H5|].
  exact (rayTrace_opaque_matt 0 litWall origin xAxis 0 world0 1%float wallRight
           H1 H2 H3 H4 H5).
Defined.

(** X7, on the glass met by every ray: depths 0 to 6 and no other. *)
Lemma rayTrace_depth_range_witness :
  (fuelFor 0 <= 7)%nat /\
  exists c w',
    rayTrace 7 glassFog origin xAxis 0 world0 = Done c w' /\
    exists new, events w' = new ++ events world0 /\
      Forall (depthInRange 0) new.
Proof.
  assert (H : (fuelFor 0 <= 7)%nat) by (vm_compute; lia).
  split; [exact H|].
  exact (rayTrace_depth_range 7 glassFog origin xAxis 0 world0 H).
Defined.

(** X8, on the two mirrors. *)
Lemma rayTrace_call_bound_witness :
  (fuelFor 0 <= 7)%nat /\
  exists c w',
    rayTrace 7 twoMirrors origin xAxis 0 world0 = Done c w' /\
    (rayTraceCalls (events w') <=
       rayTraceCalls (events world0)
       + callBound (Z.to_nat (sceneGetLightCount twoMirrors)) (levelsLeft 0))%nat /\
    (sceneGetLightCount twoMirrors = 1 -> 0 = 0 ->
     (rayTraceCalls (events w') <= rayTraceCalls (events world0) + 41)%nat).
Proof.
  assert (H : (fuelFor 0 <= 7)%nat) by (vm_compute; lia).
  split; [exact H|].
  exact (rayTrace_call_bound 7 twoMirrors origin xAxis 0 world0 H).
Defined.

(** The bound of 41 calls is reached where every ray meets an object that
    transmits and reflects. *)
Example rayTrace_call_bound_reached :
  exists c w',
    rayTrace 7 glassMirrorFog origin xAxis 0 world0 = Done c w' /\
    rayTraceCalls (events w') = 41%nat.
Proof. eexists _, _. split; vm_compute; reflexivity. Qed.

(** X9, on the chalk wall. *)
Lemma rayTrace_limit_returns_last_shaded_witness :
  0 < MAX_DEPTH /\
  (fuelFor 0 <= 7)%nat /\
  (fst (getNearestObject oneWall origin xAxis None) =? DBL_MAX)%float = false /\
  exists c w1,
    rayTrace 7 oneWall origin xAxis 0 world0 = Done c w1 /\
    forall (fuel2 : nat) (scene2 : Scn) (eye2 ray2 : Vec) (depth2 : Z),
      MAX_DEPTH <= depth2 ->
      rayTrace (S fuel2) scene2 eye2 ray2 depth2 w1 =
      Done c (mkWorld c (EvRayTrace depth2 :: events w1)).
Proof.
  assert (H1 : 0 < MAX_DEPTH) by reflexivity.
  assert (H2 : (fuelFor 0 <= 7)%nat) by (vm_compute; lia).
  assert (H3 : (fst (getNearestObject oneWall origin xAxis None) =? DBL_MAX)%float = false)
    by reflexivity.
  split; [exact H1|]. split; [exact H2|]. split; [exact H3|].
  exact (rayTrace_limit_returns_last_shaded 7 oneWall origin xAxis 0 world0 H1 H2 H3).
Defined.

(** In the fog of glass every ray and every value of [ray] will do. *)
Lemma glassFog_hall : glassHall glassFog (fun _ _ => True) (fun _ _ _ => True).
Proof.
  split.
  - intros eye ray _. exists 1%float, (Probe 1%float 0).
    repeat split; reflexivity.
  - intros object point r _. split; exact I.
Qed.

(** X10, in the fog of glass with its one light: seven calls. *)
Lemma rayTrace_glass_call_count_witness :
  glassHall glassFog (fun _ _ => True) (fun _ _ _ => True) /\
  True /\
  (fuelFor 0 <= 7)%nat /\
  let L := Z.to_nat (sceneGetLightCount glassFog) in
  exists c w',
    rayTrace 7 glassFog origin xAxis 0 world0 = Done c w' /\
    rayTraceCalls (events w') =
      (rayTraceCalls (events world0)
       + (1 + L * (1 + L * (1 + L * (1 + L * (1 + L * (1 + L)))))))%nat /\
    (L = 1%nat -> rayTraceCalls (events w') = (rayTraceCalls (events world0) + 7)%nat).
Proof.
  assert (H : (fuelFor 0 <= 7)%nat) by (vm_compute; lia).
  split; [exact glassFog_hall|]. split; [exact I|]. split; [exact H|].
  exact (rayTrace_glass_call_count 7 glassFog (fun _ _ => True) (fun _ _ _ => True)
           origin xAxis world0 glassFog_hall I H).
Defined.

End CoverageConcrete.
